(** * The request-field validation engine of norejs-core

    A shallow embedding of [Validator.validate]
    (src/lib/request/validation/validator.ts) together with the part of the
    JavaScript value semantics the engine relies on, and the properties of
    its error report. *)

From Stdlib Require Import Bool Arith ZArith QArith Qabs Lia List String Ascii.
Import ListNotations.
Local Close Scope Q_scope.
Local Open Scope list_scope.
Local Open Scope string_scope.


Set Warnings "-register-all".

(** ** JavaScript values *)

Module Js.

(** A number is NaN, an infinity or a finite value.  A finite value is kept
    as the rational it denotes; the two zeros are not told apart. *)
Inductive JsNumber : Type :=
| NumNaN
| NumInfinity (negative : bool)
| NumFinite (q : Q).

(** The values a decoded query string, a route-parameter table or a JSON
    body can hold, plus [undefined] for a missing property. *)
Inductive JsValue : Type :=
| VUndefined
| VNull
| VBool (b : bool)
| VNumber (n : JsNumber)
| VString (s : string)
| VArray (items : list JsValue)
| VObject (props : list (string * JsValue)).

(** An object is the list of its own properties, in key order. *)
Definition JsObject : Type := list (string * JsValue).

(** What a [throw] carries: the engine's callees raise either a built-in
    [TypeError] or an arbitrary value thrown by user code. *)
Inductive Exception : Type :=
| TypeError (msg : string)
| Thrown (v : JsValue).

(** The completion of an evaluation: a value, or an exception on its way
    up. *)
Inductive Completion (A : Type) : Type :=
| Normal (a : A)
| Throw (e : Exception).
Arguments Normal {A} a.
Arguments Throw {A} e.

Definition completes {A} (c : Completion A) : bool :=
  match c with Normal _ => true | Throw _ => false end.

(** [o[key]] on own properties.  Names inherited from [Object.prototype]
    ([constructor], [toString], ...) are not looked up: a bucket is read
    only at keys it may define itself. *)
Fixpoint getProp (o : JsObject) (key : string) : JsValue :=
  match o with
  | [] => VUndefined
  | (k, v) :: rest => if String.eqb k key then v else getProp rest key
  end.

Definition hasOwn (o : JsObject) (key : string) : bool :=
  existsb (fun kv => String.eqb (fst kv) key) o.

(** [typeof v] *)
Definition typeofJs (v : JsValue) : string :=
  match v with
  | VUndefined => "undefined"
  | VNull => "object"
  | VBool _ => "boolean"
  | VNumber _ => "number"
  | VString _ => "string"
  | VArray _ => "object"
  | VObject _ => "object"
  end.

(** [Array.isArray(v)] *)
Definition isArray (v : JsValue) : bool :=
  match v with VArray _ => true | _ => false end.

Definition numberIsZero (n : JsNumber) : bool :=
  match n with NumFinite q => Qeq_bool q 0%Q | _ => false end.

(** ToBoolean: the falsy values are [undefined], [null], [false], [0],
    [NaN] and the empty string. *)
Definition truthy (v : JsValue) : bool :=
  match v with
  | VUndefined | VNull => false
  | VBool b => b
  | VNumber NumNaN => false
  | VNumber n => negb (numberIsZero n)
  | VString s => negb (String.eqb s "")
  | VArray _ | VObject _ => true
  end.

(** *** Strings

    A string is a sequence of code units below 256 (the Latin-1 range). *)

Definition inRange (lo hi : nat) (c : ascii) : bool :=
  (lo <=? nat_of_ascii c)%nat && (nat_of_ascii c <=? hi)%nat.

Definition lowerChar (c : ascii) : ascii :=
  if inRange 65 90 c then ascii_of_nat (nat_of_ascii c + 32)
  else if inRange 192 222 c && negb (nat_of_ascii c =? 215)%nat
       then ascii_of_nat (nat_of_ascii c + 32)
       else c.

(** [s.toLowerCase()] *)
Fixpoint toLowerCase (s : string) : string :=
  match s with
  | EmptyString => EmptyString
  | String c rest => String (lowerChar c) (toLowerCase rest)
  end.

(** [xs.includes(x)] on an array of strings *)
Definition includes (xs : list string) (x : string) : bool :=
  existsb (String.eqb x) xs.

(** [xs.join(sep)] on an array of strings *)
Fixpoint join (sep : string) (xs : list string) : string :=
  match xs with
  | [] => ""
  | [x] => x
  | x :: rest => x ++ sep ++ join sep rest
  end.

(** *** Number parsing: [parseInt] and [parseFloat] on a string

    Both scan the longest numeric prefix after leading white space and
    yield [NaN] when there is none; neither has a failure exit.  The
    value is the exact one the digits denote, before any rounding. *)

Definition isWhiteSpace (c : ascii) : bool :=
  inRange 9 13 c || (nat_of_ascii c =? 32)%nat || (nat_of_ascii c =? 160)%nat.

Fixpoint trimStart (cs : list ascii) : list ascii :=
  match cs with
  | c :: rest => if isWhiteSpace c then trimStart rest else cs
  | [] => []
  end.

(** A leading sign: whether it is a minus, and what follows it. *)
Definition takeSign (cs : list ascii) : bool * list ascii :=
  match cs with
  | "-"%char :: rest => (true, rest)
  | "+"%char :: rest => (false, rest)
  | _ => (false, cs)
  end.

(** The value of a digit in the given radix, if it is one. *)
Definition digitValue (radix : Z) (c : ascii) : option Z :=
  let n := Z.of_nat (nat_of_ascii c) in
  let d := if inRange 48 57 c then (n - 48)%Z
           else if inRange 97 122 c then (n - 87)%Z
           else if inRange 65 90 c then (n - 55)%Z
           else radix in
  if (d <? radix)%Z then Some d else None.

(** The longest digit prefix: its value, its length, and the rest. *)
Fixpoint scanDigits (radix : Z) (acc : Z) (len : nat) (cs : list ascii)
  : Z * nat * list ascii :=
  match cs with
  | c :: rest =>
      match digitValue radix c with
      | Some d => scanDigits radix (acc * radix + d)%Z (S len) rest
      | None => (acc, len, cs)
      end
  | [] => (acc, len, [])
  end.

Definition signed (negative : bool) (q : Q) : Q :=
  if negative then Qopp q else q.

Definition parseIntString (s : string) : JsNumber :=
  let '(negative, cs) := takeSign (trimStart (list_ascii_of_string s)) in
  let '(radix, cs) :=
    match cs with
    | "0"%char :: "x"%char :: rest => (16%Z, rest)
    | "0"%char :: "X"%char :: rest => (16%Z, rest)
    | _ => (10%Z, cs)
    end in
  let '(value, len, _) := scanDigits radix 0 0 cs in
  match len with
  | O => NumNaN
  | S _ => NumFinite (signed negative (inject_Z value))
  end.

Fixpoint startsWith (prefix cs : list ascii) : bool :=
  match prefix, cs with
  | [], _ => true
  | p :: prefix', c :: cs' => Ascii.eqb p c && startsWith prefix' cs'
  | _ :: _, [] => false
  end.

Definition parseFloatString (s : string) : JsNumber :=
  let '(negative, cs) := takeSign (trimStart (list_ascii_of_string s)) in
  if startsWith (list_ascii_of_string "Infinity") cs then NumInfinity negative
  else
    let '(whole, wholeLen, cs) := scanDigits 10 0 0 cs in
    let '(frac, fracLen, cs) :=
      match cs with
      | "."%char :: rest => scanDigits 10 0 0 rest
      | _ => (0%Z, O, cs)
      end in
    let exponent :=
      match cs with
      | c :: rest =>
          if Ascii.eqb c "e" || Ascii.eqb c "E" then
            let '(expNegative, rest) := takeSign rest in
            let '(e, eLen, _) := scanDigits 10 0 0 rest in
            match eLen with
            | O => 0%Z
            | S _ => if expNegative then (- e)%Z else e
            end
          else 0%Z
      | [] => 0%Z
      end in
    match (wholeLen + fracLen)%nat with
    | O => NumNaN
    | S _ =>
        let mantissa :=
          (inject_Z whole + inject_Z frac / inject_Z (10 ^ Z.of_nat fracLen)%Z)%Q in
        NumFinite (signed negative (mantissa * Qpower (inject_Z 10) exponent)%Q)
    end.

(** *** Coercions that need the host

    Printing a number and parsing a date string are left to the host
    engine: the first is the shortest round-trip decimal of a double, the
    second is implementation-defined for most inputs. *)
Record Host : Type := {
  numberToString : JsNumber -> string;
  (** [Date.parse(s)]: a time value, or [NaN] *)
  dateParse : string -> JsNumber
}.

Section Coercions.
Variable host : Host.

(** ToString.  An object is first reduced to a primitive through its
    [toString] and [valueOf] members; an own property holding decoded data
    is never callable, so an object that defines [toString] itself has no
    usable conversion and the reduction raises [TypeError].  An array is
    printed by [Array.prototype.join], which prints [undefined] and [null]
    items as the empty string. *)
Fixpoint toStringJs (v : JsValue) : Completion string :=
  match v with
  | VUndefined => Normal "undefined"
  | VNull => Normal "null"
  | VBool b => Normal (if b then "true" else "false")
  | VNumber n => Normal (numberToString host n)
  | VString s => Normal s
  | VArray items =>
      let item (x : JsValue) : Completion string :=
        match x with
        | VUndefined | VNull => Normal ""
        | _ => toStringJs x
        end in
      (fix joinItems (xs : list JsValue) : Completion string :=
         match xs with
         | [] => Normal ""
         | x :: rest =>
             match item x with
             | Throw e => Throw e
             | Normal s =>
                 match rest with
                 | [] => Normal s
                 | _ :: _ =>
                     match joinItems rest with
                     | Throw e => Throw e
                     | Normal r => Normal (s ++ "," ++ r)
                     end
                 end
             end
         end) items
  | VObject props =>
      if hasOwn props "toString"
      then Throw (TypeError "Cannot convert object to primitive value")
      else Normal "[object Object]"
  end.

(** [parseInt(v)] and [parseFloat(v)]: the argument is converted to a
    string, which may raise, and then scanned, which may not. *)
Definition parseInt (v : JsValue) : Completion JsNumber :=
  match toStringJs v with
  | Normal s => Normal (parseIntString s)
  | Throw e => Throw e
  end.

Definition parseFloat (v : JsValue) : Completion JsNumber :=
  match toStringJs v with
  | Normal s => Normal (parseFloatString s)
  | Throw e => Throw e
  end.

(** TimeClip: a time value beyond 8.64e15 ms either side of the epoch is
    no date; one within is cut to a whole number of milliseconds. *)
Definition timeClip (n : JsNumber) : JsNumber :=
  match n with
  | NumFinite q =>
      if Qle_bool (Qabs q) (inject_Z 8640000000000000)
      then NumFinite (inject_Z (Z.quot (Qnum q) (Zpos (Qden q))))
      else NumNaN
  | _ => NumNaN
  end.

(** [new Date(v).getTime()]: a string, or an object reduced to one, is
    parsed; any other primitive is converted to a number. *)
Definition dateGetTime (v : JsValue) : Completion JsNumber :=
  match v with
  | VUndefined => Normal NumNaN
  | VNull => Normal (NumFinite 0%Q)
  | VBool b => Normal (NumFinite (if b then 1%Q else 0%Q))
  | VNumber n => Normal (timeClip n)
  | VString s => Normal (timeClip (dateParse host s))
  | VArray _ | VObject _ =>
      match toStringJs v with
      | Normal s => Normal (timeClip (dateParse host s))
      | Throw e => Throw e
      end
  end.

(** [isNaN(n)] on a number *)
Definition isNaN (n : JsNumber) : bool :=
  match n with NumNaN => true | _ => false end.

End Coercions.

End Js.

(** ** The validator's data model *)

Module Validator.
Import Js.

Inductive DataOriginType : Type := Query | Body | Params.

Inductive FieldType : Type :=
| TString | TObject | TArray | TBool | TDate
| TTimestamp | TDouble | TInt | TLong | TDecimal.

(** The spelling of a field type, as it is interpolated into messages. *)
Definition fieldTypeName (t : FieldType) : string :=
  match t with
  | TString => "string"
  | TObject => "object"
  | TArray => "array"
  | TBool => "bool"
  | TDate => "date"
  | TTimestamp => "timestamp"
  | TDouble => "double"
  | TInt => "int"
  | TLong => "long"
  | TDecimal => "decimal"
  end.

(** A rule's functions are closures the schema refers to; a reference
    names one, and a [RuleFunctions] table says what calling it gives. *)
Definition FnRef : Type := nat.

(** [RuleType.message]: a string, or a function producing one *)
Inductive RuleMessage : Type :=
| MessageString (s : string)
| MessageFunction (fn : FnRef).

Record RuleType : Type := {
  rule_message : option RuleMessage;
  rule_validator : FnRef
}.

(** [FieldValidationOptions.type]: [FieldType | [FieldType, string]] *)
Inductive TypeDecl : Type :=
| TypeOnly (t : FieldType)
| TypeWithMessage (t : FieldType) (msg : string).

(** [FieldValidationOptions.required]: [boolean | string] *)
Inductive RequiredDecl : Type :=
| RequiredBool (b : bool)
| RequiredString (s : string).

Record FieldValidationOptions : Type := {
  def_type : TypeDecl;
  def_required : option RequiredDecl;
  def_rules : option (list RuleType)
}.

(** A schema: the field names in [Object.keys] order, each with its
    options. *)
Definition ValidateOptions : Type := list (string * FieldValidationOptions).

Record ValidationError : Type := {
  err_origin : DataOriginType;
  err_field : string;
  err_type : FieldType;
  err_value : JsValue;
  err_message : list string
}.

Record ValidationResult : Type := {
  res_message : option string;
  res_errors : list ValidationError
}.

(** The part of an express request the engine reads: its three data
    buckets, each already decoded into a key-value object. *)
Record Request : Type := {
  query : JsObject;
  body : JsObject;
  params : JsObject
}.

(** [request[origin]] *)
Definition requestData (request : Request) (origin : DataOriginType) : JsObject :=
  match origin with
  | Query => query request
  | Body => body request
  | Params => params request
  end.

(** What calling (and awaiting) a rule's function gives.  Rules are
    stateless: the outcome depends on the arguments alone. *)
Record RuleFunctions : Type := {
  callValidator :
    FnRef -> JsValue -> FieldValidationOptions -> JsObject -> Completion JsValue;
  callMessage :
    FnRef -> JsValue -> FieldValidationOptions -> JsObject -> Completion string
}.

(** A call the engine makes into a rule, with the arguments it passes. *)
Inductive Call : Type :=
| ValidatorCall (fn : FnRef) (value : JsValue)
    (options : FieldValidationOptions) (data : JsObject)
| MessageCall (fn : FnRef) (value : JsValue)
    (options : FieldValidationOptions) (data : JsObject).

(** ** Effects

    The engine mutates [result.errors] and calls into rules, which may
    throw.  A computation takes the state to a completion and a state;
    [calls] logs every call into a rule, oldest first. *)

Record State : Type := {
  errors : list ValidationError;
  calls : list Call
}.

Definition M (A : Type) : Type := State -> Completion A * State.

Definition ret {A} (a : A) : M A := fun st => (Normal a, st).

Definition bind {A B} (m : M A) (k : A -> M B) : M B :=
  fun st =>
    match m st with
    | (Normal a, st') => k a st'
    | (Throw e, st') => (Throw e, st')
    end.

Notation "x <- m ;; k" := (bind m (fun x => k))
  (at level 61, m at next level, right associativity).
Notation "m ;; k" := (bind m (fun _ => k))
  (at level 61, right associativity).

(** [throw e] *)
Definition throw {A} (e : Exception) : M A := fun st => (Throw e, st).

(** The completion of a side-effect free evaluation, as a computation. *)
Definition lift {A} (c : Completion A) : M A := fun st => (c, st).

(** [try { body } catch (error) { handler }] *)
Definition tryCatch (body : M unit) (handler : Exception -> M unit) : M unit :=
  fun st =>
    match body st with
    | (Normal _, st') => (Normal tt, st')
    | (Throw e, st') => handler e st'
    end.

(** [for (const x of xs) { body }] *)
Fixpoint forOf {A} (xs : list A) (body : A -> M unit) : M unit :=
  match xs with
  | [] => ret tt
  | x :: rest => body x ;; forOf rest body
  end.

(** [if (c) { m }] *)
Definition when (c : bool) (m : M unit) : M unit :=
  if c then m else ret tt.

(** ** The engine *)

Section Engine.
Variable host : Host.
Variable fns : RuleFunctions.

(** [await rule.validator(value, def, data)] *)
Definition invokeValidator (fn : FnRef) (value : JsValue)
    (def : FieldValidationOptions) (data : JsObject) : M JsValue :=
  fun st =>
    (callValidator fns fn value def data,
     {| errors := errors st;
        calls := (calls st ++ [ValidatorCall fn value def data])%list |}).

(** [await rule.message(value, def, data)] *)
Definition invokeMessage (fn : FnRef) (value : JsValue)
    (def : FieldValidationOptions) (data : JsObject) : M string :=
  fun st =>
    (callMessage fns fn value def data,
     {| errors := errors st;
        calls := (calls st ++ [MessageCall fn value def data])%list |}).

(** [element.message.push(...error.message)] *)
Definition pushMessages (element error : ValidationError) : ValidationError :=
  {| err_origin := err_origin element;
     err_field := err_field element;
     err_type := err_type element;
     err_value := err_value element;
     err_message := (err_message element ++ err_message error)%list |}.

(** The scan of [addError]: the first entry for the error's field takes
    its messages; the flag says whether there was one. *)
Fixpoint scanErrors (error : ValidationError) (entries : list ValidationError)
  : bool * list ValidationError :=
  match entries with
  | [] => (false, [])
  | element :: rest =>
      if String.eqb (err_field error) (err_field element)
      then (true, pushMessages element error :: rest)
      else let '(found, rest') := scanErrors error rest in
           (found, element :: rest')
  end.

Definition addError (error : ValidationError) : M unit :=
  fun st =>
    let '(found, entries) := scanErrors error (errors st) in
    (Normal tt,
     {| errors := if found then entries else (entries ++ [error])%list;
        calls := calls st |}).

(** [Array.isArray(def.type) ? def.type[0] : def.type] *)
Definition fieldTypeOf (def : FieldValidationOptions) : FieldType :=
  match def_type def with
  | TypeOnly t => t
  | TypeWithMessage t _ => t
  end.

(** The [isRequired] closure; with [required] left out it yields
    [undefined], which every test of it treats as false. *)
Definition isRequired (def : FieldValidationOptions) : bool :=
  match def_required def with
  | Some (RequiredBool b) => b
  | Some (RequiredString _) => true
  | None => false
  end.

(** The [valueFilled] closure *)
Definition valueFilled (value : JsValue) : bool :=
  match value with
  | VNull | VUndefined => false
  | VString s => negb (String.length s =? 0)%nat
  | VArray items => negb (List.length items =? 0)%nat
  | _ => true
  end.

(** [value === null || value === undefined] *)
Definition isEmpty (value : JsValue) : bool :=
  match value with
  | VNull | VUndefined => true
  | _ => false
  end.

Definition requiredMessage (field : string) (def : FieldValidationOptions) : string :=
  match def_required def with
  | Some (RequiredString s) => s
  | _ => "The field `" ++ field ++ "` is required"
  end.

Definition typeErrorMessage (field : string) (def : FieldValidationOptions) : string :=
  match def_type def with
  | TypeWithMessage _ msg => msg
  | TypeOnly _ =>
      "The value of `" ++ field ++ "` must be a valid " ++ fieldTypeName (fieldTypeOf def)
  end.

Definition mkError (origin : DataOriginType) (field : string)
    (def : FieldValidationOptions) (value : JsValue) (message : list string)
  : ValidationError :=
  {| err_origin := origin;
     err_field := field;
     err_type := fieldTypeOf def;
     err_value := value;
     err_message := message |}.

(** Required Rule validation (lines 155-171) *)
Definition requiredValidation (origin : DataOriginType) (field : string)
    (def : FieldValidationOptions) (value : JsValue) : M unit :=
  when (isRequired def)
    (when (negb (valueFilled value))
       (addError (mkError origin field def value [requiredMessage field def]))).

(** Type validation (lines 179-330) *)
Definition typeValidation (origin : DataOriginType) (field : string)
    (def : FieldValidationOptions) (value : JsValue) : M unit :=
  when (negb (isEmpty value))
    (let typeError := mkError origin field def value [typeErrorMessage field def] in
     match fieldTypeOf def with
     | TString =>
         when (negb (String.eqb (typeofJs value) "string")) (addError typeError)
     | TArray =>
         when (negb (isArray value)) (addError typeError)
     | TBool =>
         match origin with
         | Query | Params =>
             when (match value with
                   | VString s =>
                       negb (String.length s =? 0)%nat
                       && negb (includes ["true"; "false"] (toLowerCase s))
                   | _ => false
                   end)
               (addError typeError)
         | Body =>
             when (negb (String.eqb (typeofJs value) "boolean")) (addError typeError)
         end
     | TDate =>
         tryCatch
           (date <- lift (dateGetTime host value) ;;
            when (isNaN date)
              (throw (Thrown (VObject [("message", VString (typeErrorMessage field def))]))))
           (fun _ => addError typeError)
     | TDecimal | TDouble =>
         tryCatch
           (_ <- lift (parseFloat host value) ;; ret tt)
           (fun _ => addError typeError)
     | TInt | TLong | TTimestamp =>
         tryCatch
           (_ <- lift (parseInt host value) ;; ret tt)
           (fun _ => addError typeError)
     | TObject =>
         when (negb (String.eqb (typeofJs value) "object")) (addError typeError)
     end).

(** The message of a failed rule: a non-empty string as it is, a function
    called, and the default otherwise. *)
Definition ruleErrorMessage (field : string) (rule : RuleType) (value : JsValue)
    (def : FieldValidationOptions) (data : JsObject) : M string :=
  match rule_message rule with
  | Some (MessageString s) =>
      if negb (String.length s =? 0)%nat then ret s
      else ret ("`" ++ field ++ "` value is not valid")
  | Some (MessageFunction fn) => invokeMessage fn value def data
  | None => ret ("`" ++ field ++ "` value is not valid")
  end.

(** Rules validation (lines 332-352) *)
Definition rulesValidation (origin : DataOriginType) (field : string)
    (def : FieldValidationOptions) (value : JsValue) (data : JsObject) : M unit :=
  when (isRequired def || negb (isEmpty value))
    (forOf (match def_rules def with Some rules => rules | None => [] end)
       (fun rule =>
          passed <- invokeValidator (rule_validator rule) value def data ;;
          when (negb (truthy passed))
            (errorMessage <- ruleErrorMessage field rule value def data ;;
             addError (mkError origin field def value [errorMessage])))).

(** The body of the loop over the schema's fields (lines 117-353) *)
Definition validateField (origin : DataOriginType) (data : JsObject)
    (field : string) (def : FieldValidationOptions) : M unit :=
  let value := getProp data field in
  requiredValidation origin field def value ;;
  typeValidation origin field def value ;;
  rulesValidation origin field def value data.

(** [const result = { errors: [] }] *)
Definition initResult : M unit :=
  fun st => (Normal tt, {| errors := []; calls := calls st |}).

Definition getErrors : M (list ValidationError) :=
  fun st => (Normal (errors st), st).

Definition validate (request : Request) (origin : DataOriginType)
    (options : ValidateOptions) : M ValidationResult :=
  let data := requestData request origin in
  initResult ;;
  forOf options (fun entry => validateField origin data (fst entry) (snd entry)) ;;
  entries <- getErrors ;;
  ret {| res_message :=
           Some (join "; " (map (fun error => join "; " (err_message error)) entries));
         res_errors := entries |}.

End Engine.

End Validator.

Import Js Validator.

(** ** What a run amounts to

    The functions below describe a run without the state: the messages it
    adds, the calls it makes and the exception that ends it, if any.  The
    bridge lemmas further down show that the engine computes exactly
    these. *)

Section Outcome.
Variable host : Host.
Variable fns : RuleFunctions.

(** [addError] on the list of entries alone *)
Definition applyError (error : ValidationError) (entries : list ValidationError)
  : list ValidationError :=
  let '(found, entries') := scanErrors error entries in
  if found then entries' else (entries' ++ [error])%list.

(** One [addError] per message, all for the same field *)
Definition addMessages (origin : DataOriginType) (field : string)
    (def : FieldValidationOptions) (value : JsValue) (messages : list string)
    (entries : list ValidationError) : list ValidationError :=
  fold_left (fun acc m => applyError (mkError origin field def value [m]) acc)
    messages entries.

(** The field names of the entries, in order *)
Definition entryFields (entries : list ValidationError) : list string :=
  map err_field entries.

(** All messages held by the entries for a field *)
Definition messagesFor (field : string) (entries : list ValidationError)
  : list string :=
  flat_map (fun entry =>
              if String.eqb field (err_field entry) then err_message entry else [])
    entries.

(** The required-failure message of a field, if any *)
Definition requiredFailure (field : string) (def : FieldValidationOptions)
    (value : JsValue) : list string :=
  if isRequired def && negb (valueFilled value)
  then [requiredMessage field def] else [].

(** Whether a value that is neither [null] nor [undefined] fails the check
    of a declared type. *)
Definition typeMismatch (origin : DataOriginType) (t : FieldType)
    (value : JsValue) : bool :=
  match t with
  | TString => match value with VString _ => false | _ => true end
  | TArray => match value with VArray _ => false | _ => true end
  | TObject =>
      match value with VArray _ | VObject _ | VNull => false | _ => true end
  | TBool =>
      match origin with
      | Body => match value with VBool _ => false | _ => true end
      | Query | Params =>
          match value with
          | VString "" => false
          | VString s =>
              negb (String.eqb (toLowerCase s) "true"
                    || String.eqb (toLowerCase s) "false")
          | _ => false
          end
      end
  | TDate =>
      match dateGetTime host value with
      | Normal NumNaN => true
      | Normal _ => false
      | Throw _ => true
      end
  | TDouble | TDecimal => negb (completes (parseFloat host value))
  | TInt | TLong | TTimestamp => negb (completes (parseInt host value))
  end.

(** The type-mismatch message of a field, if any *)
Definition typeFailure (origin : DataOriginType) (field : string)
    (def : FieldValidationOptions) (value : JsValue) : list string :=
  if negb (isEmpty value) && typeMismatch origin (fieldTypeOf def) value
  then [typeErrorMessage field def] else [].

Definition rulesOf (def : FieldValidationOptions) : list RuleType :=
  match def_rules def with Some rules => rules | None => [] end.

(** Whether the rules of a field are run at all *)
Definition rulesApply (def : FieldValidationOptions) (value : JsValue) : bool :=
  isRequired def || negb (isEmpty value).

(** A rule fails when its predicate yields a falsy value. *)
Definition ruleFails (value : JsValue) (def : FieldValidationOptions)
    (data : JsObject) (rule : RuleType) : bool :=
  match callValidator fns (rule_validator rule) value def data with
  | Normal r => negb (truthy r)
  | Throw _ => false
  end.

Definition defaultRuleMessage (field : string) : string :=
  "`" ++ field ++ "` value is not valid".

(** The message of a failing rule: its own static or computed message,
    else the default.  A producer that throws ends the run and leaves no
    message; the default stands in for it here. *)
Definition ruleMessageText (field : string) (value : JsValue)
    (def : FieldValidationOptions) (data : JsObject) (rule : RuleType) : string :=
  match rule_message rule with
  | Some (MessageString "") => defaultRuleMessage field
  | Some (MessageString s) => s
  | Some (MessageFunction fn) =>
      match callMessage fns fn value def data with
      | Normal m => m
      | Throw _ => defaultRuleMessage field
      end
  | None => defaultRuleMessage field
  end.

(** The rule-failure messages of a field, in the declared rule order *)
Definition ruleFailures (field : string) (def : FieldValidationOptions)
    (value : JsValue) (data : JsObject) : list string :=
  if rulesApply def value
  then map (ruleMessageText field value def data)
         (filter (ruleFails value def data) (rulesOf def))
  else [].

(** The calls one rule gives rise to: its predicate, and its message
    producer when the predicate's result is falsy and the message is a
    function. *)
Definition ruleCalls (value : JsValue) (def : FieldValidationOptions)
    (data : JsObject) (rule : RuleType) : list Call :=
  ValidatorCall (rule_validator rule) value def data ::
  match rule_message rule with
  | Some (MessageFunction fn) =>
      if ruleFails value def data rule
      then [MessageCall fn value def data] else []
  | _ => []
  end.

(** Whether running a rule raises: from its predicate, or from its
    message producer once the predicate's result is falsy. *)
Definition ruleThrows (value : JsValue) (def : FieldValidationOptions)
    (data : JsObject) (rule : RuleType) : option Exception :=
  match callValidator fns (rule_validator rule) value def data with
  | Throw e => Some e
  | Normal r =>
      if truthy r then None
      else match rule_message rule with
           | Some (MessageFunction fn) =>
               match callMessage fns fn value def data with
               | Throw e => Some e
               | Normal _ => None
               end
           | _ => None
           end
  end.

(** A run over a list of rules: the messages added, the calls made, and
    the exception that cut it short. *)
Fixpoint rulesRun (field : string) (value : JsValue)
    (def : FieldValidationOptions) (data : JsObject) (rules : list RuleType)
  : list string * list Call * option Exception :=
  match rules with
  | [] => ([], [], None)
  | rule :: rest =>
      match ruleThrows value def data rule with
      | Some e => ([], ruleCalls value def data rule, Some e)
      | None =>
          let '(messages, made, exn) := rulesRun field value def data rest in
          ((if ruleFails value def data rule
            then [ruleMessageText field value def data rule] else [])
           ++ messages,
           ruleCalls value def data rule ++ made,
           exn)%list
      end
  end.

(** A run over one field *)
Definition fieldRun (origin : DataOriginType) (data : JsObject)
    (field : string) (def : FieldValidationOptions)
  : list string * list Call * option Exception :=
  let value := getProp data field in
  let '(messages, made, exn) :=
    if rulesApply def value
    then rulesRun field value def data (rulesOf def)
    else ([], [], None) in
  ((requiredFailure field def value ++ typeFailure origin field def value
    ++ messages)%list, made, exn).

(** The calls a field gives rise to, when none of them throws *)
Definition fieldCalls (data : JsObject) (field : string)
    (def : FieldValidationOptions) : list Call :=
  let value := getProp data field in
  if rulesApply def value
  then flat_map (ruleCalls value def data) (rulesOf def)
  else [].

(** The state a run over one field leaves *)
Definition afterField (origin : DataOriginType) (data : JsObject)
    (field : string) (def : FieldValidationOptions) (st : State) : State :=
  let '(messages, made, _) := fieldRun origin data field def in
  {| errors := addMessages origin field def (getProp data field) messages (errors st);
     calls := (calls st ++ made)%list |}.

Definition completionOf (exn : option Exception) : Completion unit :=
  match exn with None => Normal tt | Some e => Throw e end.

(** A run over the fields of a schema, up to the first exception *)
Fixpoint afterFields (origin : DataOriginType) (data : JsObject)
    (options : ValidateOptions) (st : State) : option Exception * State :=
  match options with
  | [] => (None, st)
  | (field, def) :: rest =>
      match snd (fieldRun origin data field def) with
      | Some e => (Some e, afterField origin data field def st)
      | None => afterFields origin data rest (afterField origin data field def st)
      end
  end.

(** The result [validate] builds from the entries it has collected *)
Definition resultOf (entries : list ValidationError) : ValidationResult :=
  {| res_message :=
       Some (join "; " (map (fun error => join "; " (err_message error)) entries));
     res_errors := entries |}.

(** The entry a field ends up with when it is processed once: none if it
    produced no message. *)
Definition fieldEntry (origin : DataOriginType) (data : JsObject)
    (entry : string * FieldValidationOptions) : list ValidationError :=
  let '(field, def) := entry in
  let value := getProp data field in
  let messages :=
    (requiredFailure field def value ++ typeFailure origin field def value
     ++ ruleFailures field def value data)%list in
  match messages with
  | [] => []
  | _ :: _ => [mkError origin field def value messages]
  end.

(** ** The schema as a specification

    What it means for data to satisfy a schema, stated on the values and
    not on the engine's tests. *)

Definition Required (def : FieldValidationOptions) : Prop :=
  def_required def = Some (RequiredBool true)
  \/ exists s, def_required def = Some (RequiredString s).

Definition Present (value : JsValue) : Prop :=
  value <> VUndefined /\ value <> VNull.

Definition Filled (value : JsValue) : Prop :=
  Present value /\ value <> VString "" /\ value <> VArray [].

Definition PassesTypeCheck (origin : DataOriginType) (t : FieldType)
    (value : JsValue) : Prop :=
  match t with
  | TString => exists s, value = VString s
  | TArray => exists items, value = VArray items
  | TObject => typeofJs value = "object"
  | TBool =>
      match origin with
      | Body => exists b, value = VBool b
      | Query | Params =>
          forall s, value = VString s -> s <> "" ->
                    toLowerCase s = "true" \/ toLowerCase s = "false"
      end
  | TDate => exists n, dateGetTime host value = Normal n /\ n <> NumNaN
  | TDouble | TDecimal => exists n, parseFloat host value = Normal n
  | TInt | TLong | TTimestamp => exists n, parseInt host value = Normal n
  end.

Definition RulePasses (value : JsValue) (def : FieldValidationOptions)
    (data : JsObject) (rule : RuleType) : Prop :=
  exists r, callValidator fns (rule_validator rule) value def data = Normal r
            /\ truthy r = true.

Definition FieldConforms (origin : DataOriginType) (data : JsObject)
    (entry : string * FieldValidationOptions) : Prop :=
  let value := getProp data (fst entry) in
  let def := snd entry in
  (Required def -> Filled value)
  /\ (Present value ->
      PassesTypeCheck origin (fieldTypeOf def) value
      /\ Forall (RulePasses value def data) (rulesOf def)).

Definition SatisfiesSchema (origin : DataOriginType) (data : JsObject)
    (options : ValidateOptions) : Prop :=
  Forall (FieldConforms origin data) options.

End Outcome.

(** A computation that leaves the state as it found it *)
Definition silent (m : M unit) : Prop :=
  forall st, m st = (Normal tt, st).

(** A computation that does nothing but record one error *)
Definition records (m : M unit) (error : ValidationError) : Prop :=
  forall st, m st = addError error st.

Definition isValidatorCall (c : Call) : bool :=
  match c with ValidatorCall _ _ _ _ => true | MessageCall _ _ _ _ => false end.

(** A schema entry with another declared type *)
Definition withType (t : TypeDecl) (def : FieldValidationOptions)
  : FieldValidationOptions :=
  {| def_type := t; def_required := def_required def; def_rules := def_rules def |}.

(** The types checked by a number parse *)
Definition isNumericType (t : FieldType) : bool :=
  match t with
  | TInt | TLong | TTimestamp | TDouble | TDecimal => true
  | _ => false
  end.

(** ** Fixtures for the examples *)

Module Fixtures.

Definition isDigit (c : ascii) : bool := inRange 48 57 c.

Definition looksLikeIsoDate (s : string) : bool :=
  match list_ascii_of_string s with
  | [y1; y2; y3; y4; d1; m1; m2; d2; a1; a2] =>
      forallb isDigit [y1; y2; y3; y4; m1; m2; a1; a2]
      && Ascii.eqb d1 "-" && Ascii.eqb d2 "-"
  | _ => false
  end.

(** A host for the examples: every finite number prints as [0], and a
    string is a date exactly when it has the shape [dddd-dd-dd]. *)
Definition host : Host :=
  {| numberToString := fun n =>
       match n with
       | NumNaN => "NaN"
       | NumInfinity false => "Infinity"
       | NumInfinity true => "-Infinity"
       | NumFinite _ => "0"
       end;
     dateParse := fun s =>
       if looksLikeIsoDate s then NumFinite 0%Q else NumNaN |}.

(** Rule functions: predicate 0 accepts everything, 1 rejects everything,
    2 throws, 3 accepts the strings that start with [a], any other yields
    [undefined]; message producer 0 reports a fixed text, any other
    throws. *)
Definition rules : RuleFunctions :=
  {| callValidator := fun fn value _ _ =>
       match fn with
       | 0 => Normal (VBool true)
       | 1 => Normal (VBool false)
       | 2 => Throw (Thrown (VString "predicate failed"))
       | 3 => match value with
              | VString (String "a" _) => Normal (VBool true)
              | _ => Normal (VBool false)
              end
       | _ => Normal VUndefined
       end;
     callMessage := fun fn _ _ _ =>
       match fn with
       | 0 => Normal "computed message"
       | _ => Throw (Thrown (VString "producer failed"))
       end |}.

Definition emptyRequest : Request := {| query := []; body := []; params := [] |}.

Definition bodyRequest (data : JsObject) : Request :=
  {| query := []; body := data; params := [] |}.

Definition queryRequest (data : JsObject) : Request :=
  {| query := data; body := []; params := [] |}.

Definition start : State := {| errors := []; calls := [] |}.

Definition field (t : FieldType) (required : option RequiredDecl)
    (rs : list RuleType) : FieldValidationOptions :=
  {| def_type := TypeOnly t; def_required := required; def_rules := Some rs |}.

Definition rule (validator : FnRef) (message : option RuleMessage) : RuleType :=
  {| rule_message := message; rule_validator := validator |}.

End Fixtures.

(** The parse a numeric type is checked with *)
Definition numericParse (host : Host) (t : FieldType) (value : JsValue)
  : Completion JsNumber :=
  match t with
  | TDouble | TDecimal => parseFloat host value
  | _ => parseInt host value
  end.

(** ** The middleware

    [validateRequest(origin, options)] yields a handler that validates the
    request and then either hands over to the next handler or answers with
    status 422 and the validation result as JSON body.  What the handler
    does with [response] and [next] is its outcome here. *)

Inductive HandlerOutcome : Type :=
| CallNext
| Respond (status : nat) (json : ValidationResult).

Definition validateRequest (host : Host) (fns : RuleFunctions)
    (origin : DataOriginType) (options : ValidateOptions) (request : Request)
  : M HandlerOutcome :=
  validationResult <- validate host fns request origin options ;;
  if (List.length (res_errors validationResult) =? 0)%nat
  then ret CallNext
  else ret (Respond 422 validationResult).

(** ** The rule [startWithRule]

    The rule's two closures.  [errorText] is the message of the
    [TypeError] the engine raises when [startsWith] is looked up and called
    on a receiver that is no string. *)

Section StartWith.
Variable errorText : JsValue -> string.

(** [receiver.startsWith(pattern)] *)
Definition callStartsWith (pattern : string) (receiver : JsValue)
  : Completion bool :=
  match receiver with
  | VString s => Normal (String.prefix pattern s)
  | _ => Throw (TypeError (errorText receiver))
  end.

(** The loop over the items of an array value: the first item that does
    not start with the pattern ends it with [false]. *)
Fixpoint startWithItems (pattern : string) (items : list JsValue)
  : Completion JsValue :=
  match items with
  | [] => Normal (VBool true)
  | item :: rest =>
      match callStartsWith pattern item with
      | Throw e => Throw e
      | Normal b =>
          if negb b then Normal (VBool false)
          else startWithItems pattern rest
      end
  end.

(** [error?.message ?? false] *)
Definition messageOrFalse (error : Exception) : JsValue :=
  match error with
  | TypeError msg => VString msg
  | Thrown (VObject props) =>
      match getProp props "message" with
      | VUndefined | VNull => VBool false
      | m => m
      end
  | Thrown _ => VBool false
  end.

(** An item the loop passes over: a string that starts with the pattern *)
Definition goodItem (pattern : string) (item : JsValue) : Prop :=
  exists rest, item = VString (pattern ++ rest).

(** A value [startsWith] cannot be called on *)
Definition notString (value : JsValue) : Prop :=
  forall s, value <> VString s.

(** The [validator] closure: only its first parameter is used. *)
Definition startWithValidator (pattern : string) (value : JsValue)
  : Completion JsValue :=
  match (if isArray value
         then match value with
              | VArray items => startWithItems pattern items
              | _ => Normal (VBool true)
              end
         else match callStartsWith pattern value with
              | Normal b => Normal (VBool b)
              | Throw e => Throw e
              end) with
  | Normal r => Normal r
  | Throw error => Normal (messageOrFalse error)
  end.

(** A schema entry interpolated into a template: it is a plain object
    with no [toString] of its own. *)
Definition optionsToString (options : FieldValidationOptions) : string :=
  "[object Object]".

(** The [message] closure.  Its second parameter is called [field], and
    the engine passes the field's schema entry there. *)
Definition startWithMessage (pattern : string) (value : JsValue)
    (field : FieldValidationOptions) : Completion string :=
  if isArray value
  then Normal ("Each item of `" ++ optionsToString field
                 ++ "` must start with `" ++ pattern ++ "`")
  else Normal ("The field `" ++ optionsToString field
                 ++ "` value must start with `" ++ pattern ++ "`").

(** The rule object [startWithRule(pattern)], its closures held at [ref] *)
Definition startWithRule (ref : FnRef) : RuleType :=
  {| rule_message := Some (MessageFunction ref); rule_validator := ref |}.

(** A table holds the closures of [startWithRule(pattern)] at [ref]. *)
Definition holdsStartWith (fns : RuleFunctions) (ref : FnRef) (pattern : string)
  : Prop :=
  (forall value def data,
      callValidator fns ref value def data = startWithValidator pattern value)
  /\ (forall value def data,
        callMessage fns ref value def data = startWithMessage pattern value def).

(** The table in which every reference [ref] holds
    [startWithRule(patternOf ref)] *)
Definition startWithFunctions (patternOf : FnRef -> string) : RuleFunctions :=
  {| callValidator := fun ref value _ _ => startWithValidator (patternOf ref) value;
     callMessage := fun ref value def _ => startWithMessage (patternOf ref) value def |}.

End StartWith.

(** ** Further vocabulary for the error report *)

(** What an entry keeps from the first error reported for its field *)
Definition entryHeader (entry : ValidationError)
  : DataOriginType * string * FieldType * JsValue :=
  (err_origin entry, err_field entry, err_type entry, err_value entry).

(** Every message of the report, entry after entry *)
Definition allMessages (entries : list ValidationError) : list string :=
  flat_map err_message entries.

(** An entry as [validate] makes them: it carries the run's origin, a
    field of the schema with the type declared for it and the value read
    from the data, and at least one message. *)
Definition EntryOf (origin : DataOriginType) (data : JsObject)
    (options : ValidateOptions) (entry : ValidationError) : Prop :=
  err_origin entry = origin
  /\ err_value entry = getProp data (err_field entry)
  /\ err_message entry <> []
  /\ exists def, In (err_field entry, def) options
                 /\ err_type entry = fieldTypeOf def.

(** The engine's error text of V8 for the examples *)
Definition v8ErrorText (receiver : JsValue) : string :=
  match receiver with
  | VUndefined => "Cannot read properties of undefined (reading 'startsWith')"
  | VNull => "Cannot read properties of null (reading 'startsWith')"
  | _ => "value.startsWith is not a function"
  end.

(** ** Accumulating errors by field name *)

Lemma addError_run error st :
  addError error st
  = (Normal tt, {| errors := applyError error (errors st); calls := calls st |}).
Proof.
  unfold addError, applyError.
  destruct (scanErrors error (errors st)) as [found entries]; reflexivity.
Qed.

Lemma scanErrors_found error entries :
  fst (scanErrors error entries) = true <-> In (err_field error) (entryFields entries).
Proof.
  induction entries as [|element rest IH]; simpl.
  - split; [discriminate | tauto].
  - destruct (String.eqb_spec (err_field error) (err_field element)) as [E|E]; simpl.
    + split; auto.
    + destruct (scanErrors error rest) as [found rest']; simpl in *.
      rewrite IH. split; [tauto | intros [H|H]; [congruence | assumption]].
Qed.

Lemma applyError_fresh error entries :
  ~ In (err_field error) (entryFields entries) ->
  applyError error entries = (entries ++ [error])%list.
Proof.
  unfold applyError. induction entries as [|element rest IH]; simpl; intros H.
  - reflexivity.
  - destruct (String.eqb_spec (err_field error) (err_field element)) as [E|E].
    + exfalso; apply H; left; congruence.
    + assert (H' : ~ In (err_field error) (entryFields rest)) by tauto.
      specialize (IH H').
      destruct (scanErrors error rest) as [[|] rest'] eqn:S; simpl in *.
      * exfalso. apply H'. apply scanErrors_found. rewrite S. reflexivity.
      * f_equal.
        assert (F : fst (scanErrors error rest) = false) by (rewrite S; reflexivity).
        exact IH.
Qed.

Lemma applyError_cons error element rest :
  applyError error (element :: rest)
  = if String.eqb (err_field error) (err_field element)
    then pushMessages element error :: rest
    else element :: applyError error rest.
Proof.
  unfold applyError; simpl.
  destruct (String.eqb (err_field error) (err_field element)); [reflexivity|].
  destruct (scanErrors error rest) as [[|] rest']; reflexivity.
Qed.

Lemma applyError_nil error : applyError error [] = [error].
Proof. reflexivity. Qed.

Lemma applyError_not_nil error entries : applyError error entries <> [].
Proof.
  destruct entries as [|element rest].
  - discriminate.
  - rewrite applyError_cons.
    destruct (String.eqb (err_field error) (err_field element)); discriminate.
Qed.

Lemma applyError_fields error entries :
  entryFields (applyError error entries)
  = if existsb (String.eqb (err_field error)) (entryFields entries)
    then entryFields entries
    else (entryFields entries ++ [err_field error])%list.
Proof.
  induction entries as [|element rest IH].
  - reflexivity.
  - rewrite applyError_cons. simpl.
    destruct (String.eqb (err_field error) (err_field element)); simpl.
    + reflexivity.
    + rewrite IH.
      destruct (existsb (String.eqb (err_field error)) (entryFields rest)); reflexivity.
Qed.

Lemma existsb_eqb_In (x : string) (xs : list string) :
  existsb (String.eqb x) xs = true <-> In x xs.
Proof.
  rewrite existsb_exists. split.
  - intros [y [Hin E]]. apply String.eqb_eq in E. subst; assumption.
  - intros H. exists x. split; [assumption | apply String.eqb_refl].
Qed.

Lemma applyError_NoDup error entries :
  NoDup (entryFields entries) -> NoDup (entryFields (applyError error entries)).
Proof.
  intros H. rewrite applyError_fields.
  destruct (existsb (String.eqb (err_field error)) (entryFields entries)) eqn:E.
  - assumption.
  - apply NoDup_app; try assumption.
    + constructor; [intros [] | constructor].
    + intros x Hx [Hy|[]]. subst x.
      apply existsb_eqb_In in Hx. congruence.
Qed.

Lemma applyError_last error element entries :
  ~ In (err_field error) (entryFields entries) ->
  err_field error = err_field element ->
  applyError error (entries ++ [element])
  = (entries ++ [pushMessages element error])%list.
Proof.
  intros H E. induction entries as [|x rest IH]; simpl.
  - rewrite applyError_cons, E, String.eqb_refl. reflexivity.
  - rewrite applyError_cons.
    destruct (String.eqb_spec (err_field error) (err_field x)) as [F|F].
    + exfalso; apply H; left; congruence.
    + f_equal. apply IH. intros G; apply H; right; exact G.
Qed.

Lemma messagesFor_app field xs ys :
  messagesFor field (xs ++ ys) = (messagesFor field xs ++ messagesFor field ys)%list.
Proof. unfold messagesFor. apply flat_map_app. Qed.

Lemma messagesFor_absent field entries :
  ~ In field (entryFields entries) -> messagesFor field entries = [].
Proof.
  induction entries as [|element rest IH]; simpl; intros H.
  - reflexivity.
  - destruct (String.eqb_spec field (err_field element)) as [E|E].
    + exfalso; apply H; left; congruence.
    + apply IH. tauto.
Qed.

Lemma messagesFor_applyError field error entries :
  NoDup (entryFields entries) ->
  messagesFor field (applyError error entries)
  = (messagesFor field entries
     ++ if String.eqb field (err_field error) then err_message error else [])%list.
Proof.
  induction entries as [|element rest IH]; intros ND.
  - simpl. rewrite app_nil_r. reflexivity.
  - rewrite applyError_cons. simpl in ND. inversion ND as [|x xs Hnotin ND']; subst.
    destruct (String.eqb_spec (err_field error) (err_field element)) as [E|E].
    + simpl. rewrite E.
      destruct (String.eqb_spec field (err_field element)) as [F|F].
      * fold (messagesFor field rest).
        rewrite (messagesFor_absent field rest) by (rewrite F; exact Hnotin).
        rewrite !app_nil_r. reflexivity.
      * rewrite app_nil_r. reflexivity.
    + simpl. fold (messagesFor field (applyError error rest)).
      fold (messagesFor field rest).
      rewrite IH by assumption. rewrite app_assoc. reflexivity.
Qed.

(** *** Several messages for one field *)

Section AddMessages.
Variables (origin : DataOriginType) (field : string)
  (def : FieldValidationOptions) (value : JsValue).

Lemma addMessages_app xs ys entries :
  addMessages origin field def value (xs ++ ys) entries
  = addMessages origin field def value ys
      (addMessages origin field def value xs entries).
Proof. unfold addMessages. apply fold_left_app. Qed.

Lemma addMessages_nil_iff messages entries :
  addMessages origin field def value messages entries = []
  <-> messages = [] /\ entries = [].
Proof.
  revert entries. induction messages as [|m rest IH]; intros entries; simpl.
  - split; [auto | tauto].
  - rewrite IH. split.
    + intros [_ H]. exfalso. exact (applyError_not_nil _ _ H).
    + intros [H _]; discriminate.
Qed.

Lemma addMessages_NoDup messages entries :
  NoDup (entryFields entries) ->
  NoDup (entryFields (addMessages origin field def value messages entries)).
Proof.
  revert entries. induction messages as [|m rest IH]; intros entries H; simpl.
  - assumption.
  - apply IH. apply applyError_NoDup. assumption.
Qed.

Lemma addMessages_extend done rest entries :
  ~ In field (entryFields entries) ->
  addMessages origin field def value rest
    (entries ++ [mkError origin field def value done])
  = (entries ++ [mkError origin field def value (done ++ rest)])%list.
Proof.
  intros H. revert done. induction rest as [|m rest IH]; intros done; simpl.
  - rewrite app_nil_r. reflexivity.
  - rewrite applyError_last by (simpl; auto).
    unfold pushMessages, mkError at 1 2; simpl.
    fold (mkError origin field def value (done ++ [m])).
    rewrite IH. rewrite <- app_assoc. reflexivity.
Qed.

Lemma addMessages_fresh messages entries :
  ~ In field (entryFields entries) ->
  addMessages origin field def value messages entries
  = (entries ++ match messages with
                | [] => []
                | _ => [mkError origin field def value messages]
                end)%list.
Proof.
  intros H. destruct messages as [|m rest].
  - simpl. rewrite app_nil_r. reflexivity.
  - simpl. rewrite applyError_fresh by exact H.
    rewrite addMessages_extend by exact H. reflexivity.
Qed.


End AddMessages.

(** ** The engine computes the outcome *)

Section Bridge.
Variable host : Host.
Variable fns : RuleFunctions.

Lemma addMessages_run origin field def value message st :
  addError (mkError origin field def value [message]) st
  = (Normal tt,
     {| errors := addMessages origin field def value [message] (errors st);
        calls := calls st |}).
Proof. apply addError_run. Qed.

Lemma state_eta st : {| errors := errors st; calls := calls st |} = st.
Proof. destruct st; reflexivity. Qed.

Lemma ret_run origin field def value st :
  ret tt st
  = (Normal tt,
     {| errors := addMessages origin field def value [] (errors st);
        calls := calls st |}).
Proof. unfold ret; simpl. rewrite state_eta. reflexivity. Qed.

Ltac settle := first [ apply addError_run | apply ret_run ].

Lemma requiredValidation_run origin field def value st :
  requiredValidation origin field def value st
  = (Normal tt,
     {| errors := addMessages origin field def value
                    (requiredFailure field def value) (errors st);
        calls := calls st |}).
Proof.
  unfold requiredValidation, requiredFailure, when.
  destruct (isRequired def); cbn [negb andb].
  - destruct (valueFilled value); cbn [negb andb]; settle.
  - settle.
Qed.

Lemma includes_true_false x :
  includes ["true"; "false"] x = String.eqb x "true" || String.eqb x "false".
Proof. unfold includes; simpl. rewrite orb_false_r. reflexivity. Qed.

Lemma typeValidation_run origin field def value st :
  typeValidation host origin field def value st
  = (Normal tt,
     {| errors := addMessages origin field def value
                    (typeFailure host origin field def value) (errors st);
        calls := calls st |}).
Proof.
  unfold typeValidation, typeFailure, when.
  destruct (isEmpty value) eqn:Empty; cbn [negb andb].
  { settle. }
  unfold typeMismatch.
  destruct (fieldTypeOf def) eqn:T.
  - (* string *) destruct value; try discriminate; cbn [negb typeofJs isArray String.eqb Ascii.eqb Bool.eqb]; settle.
  - (* object *) destruct value; try discriminate; cbn [negb typeofJs isArray String.eqb Ascii.eqb Bool.eqb]; settle.
  - (* array *) destruct value; try discriminate; cbn [negb typeofJs isArray String.eqb Ascii.eqb Bool.eqb]; settle.
  - (* bool *)
    destruct origin.
    + destruct value as [| | | |s| |]; try discriminate; try (cbn [negb typeofJs isArray String.eqb Ascii.eqb Bool.eqb]; settle).
      destruct s as [|c s]; [cbn [negb andb String.length Nat.eqb]; settle|].
      rewrite includes_true_false.
      change (negb (String.length (String c s) =? 0)%nat) with true.
      cbv beta iota. rewrite andb_true_l.
      destruct (negb _); settle.
    + destruct value; try discriminate; cbn [negb typeofJs isArray String.eqb Ascii.eqb Bool.eqb]; settle.
    + destruct value as [| | | |s| |]; try discriminate; try (cbn [negb typeofJs isArray String.eqb Ascii.eqb Bool.eqb]; settle).
      destruct s as [|c s]; [cbn [negb andb String.length Nat.eqb]; settle|].
      rewrite includes_true_false.
      change (negb (String.length (String c s) =? 0)%nat) with true.
      cbv beta iota. rewrite andb_true_l.
      destruct (negb _); settle.
  - (* date *)
    unfold tryCatch, bind, lift, throw.
    destruct (dateGetTime host value) as [n|e]; simpl.
    + destruct n; cbn [isNaN]; settle.
    + settle.
  - (* timestamp *)
    unfold tryCatch, bind, lift. destruct (parseInt host value); cbn [completes negb]; settle.
  - (* double *)
    unfold tryCatch, bind, lift. destruct (parseFloat host value); cbn [completes negb]; settle.
  - (* int *)
    unfold tryCatch, bind, lift. destruct (parseInt host value); cbn [completes negb]; settle.
  - (* long *)
    unfold tryCatch, bind, lift. destruct (parseInt host value); cbn [completes negb]; settle.
  - (* decimal *)
    unfold tryCatch, bind, lift. destruct (parseFloat host value); cbn [completes negb]; settle.
Qed.

Lemma rules_loop_run origin field def value data rules st :
  forOf rules
    (fun rule =>
       passed <- invokeValidator fns (rule_validator rule) value def data ;;
       when (negb (truthy passed))
         (errorMessage <- ruleErrorMessage fns field rule value def data ;;
          addError (mkError origin field def value [errorMessage]))) st
  = let '(messages, made, exn) := rulesRun fns field value def data rules in
    (completionOf exn,
     {| errors := addMessages origin field def value messages (errors st);
        calls := (calls st ++ made)%list |}).
Proof.
  revert st. induction rules as [|rule rest IH]; intros st.
  - simpl. unfold ret. rewrite app_nil_r, state_eta. reflexivity.
  - cbn [forOf rulesRun]. unfold bind at 1.
    unfold bind at 1, invokeValidator, ruleThrows, ruleCalls, ruleFails.
    destruct (callValidator fns (rule_validator rule) value def data) as [r|e] eqn:V.
    + destruct (truthy r) eqn:Tr; cbn [negb when].
      * unfold ret at 1. rewrite IH.
        destruct (rulesRun fns field value def data rest) as [[messages made] exn].
        cbn [errors calls app]. rewrite <- app_assoc.
        destruct (rule_message rule) as [[s|fn]|]; reflexivity.
      * unfold ruleErrorMessage, ruleMessageText, bind at 1.
        destruct (rule_message rule) as [[s|fn]|].
        -- destruct s as [|c s].
           ++ cbn [String.length Nat.eqb negb]. unfold ret at 1.
              rewrite addError_run, IH.
              destruct (rulesRun fns field value def data rest) as [[messages made] exn].
              cbn [errors calls app]. rewrite <- app_assoc. reflexivity.
           ++ cbn [String.length Nat.eqb negb]. unfold ret at 1.
              rewrite addError_run, IH.
              destruct (rulesRun fns field value def data rest) as [[messages made] exn].
              cbn [errors calls app]. rewrite <- app_assoc. reflexivity.
        -- unfold invokeMessage.
           destruct (callMessage fns fn value def data) as [m|e] eqn:Msg.
           ++ rewrite addError_run, IH.
              destruct (rulesRun fns field value def data rest) as [[messages made] exn].
              cbn [errors calls app]. rewrite <- !app_assoc. reflexivity.
           ++ cbn [errors calls completionOf addMessages fold_left].
              rewrite <- app_assoc. reflexivity.
        -- unfold ret at 1. rewrite addError_run, IH.
           destruct (rulesRun fns field value def data rest) as [[messages made] exn].
           cbn [errors calls app]. rewrite <- app_assoc. reflexivity.
    + cbn [errors calls completionOf addMessages fold_left].
      destruct (rule_message rule) as [[s|fn]|]; reflexivity.
Qed.

Lemma rulesValidation_run origin field def value data st :
  rulesValidation fns origin field def value data st
  = let '(messages, made, exn) :=
      if rulesApply def value
      then rulesRun fns field value def data (rulesOf def)
      else ([], [], None) in
    (completionOf exn,
     {| errors := addMessages origin field def value messages (errors st);
        calls := (calls st ++ made)%list |}).
Proof.
  unfold rulesValidation, rulesApply, when.
  destruct (isRequired def || negb (isEmpty value)).
  - apply rules_loop_run.
  - unfold ret. cbn [addMessages fold_left completionOf].
    rewrite app_nil_r, state_eta. reflexivity.
Qed.

Lemma validateField_run origin data field def st :
  validateField host fns origin data field def st
  = (completionOf (snd (fieldRun host fns origin data field def)),
     afterField host fns origin data field def st).
Proof.
  unfold validateField, afterField, fieldRun, bind.
  rewrite requiredValidation_run, typeValidation_run, rulesValidation_run.
  cbn [errors calls].
  destruct (if rulesApply def (getProp data field)
            then rulesRun fns field (getProp data field) def data (rulesOf def)
            else ([], [], None)) as [[messages made] exn].
  cbn [snd]. rewrite !addMessages_app.
  destruct exn; reflexivity.
Qed.

Lemma fields_loop_run origin data options st :
  forOf options
    (fun entry => validateField host fns origin data (fst entry) (snd entry)) st
  = (completionOf (fst (afterFields host fns origin data options st)),
     snd (afterFields host fns origin data options st)).
Proof.
  revert st. induction options as [|[field def] rest IH]; intros st.
  - reflexivity.
  - cbn [forOf afterFields fst snd]. unfold bind at 1.
    rewrite validateField_run.
    destruct (snd (fieldRun host fns origin data field def)) as [e|].
    + reflexivity.
    + cbn [completionOf]. apply IH.
Qed.

Lemma validate_run request origin options st :
  validate host fns request origin options st
  = let '(exn, st') :=
      afterFields host fns origin (requestData request origin) options
        {| errors := []; calls := calls st |} in
    (match exn with
     | None => Normal (resultOf (errors st'))
     | Some e => Throw e
     end, st').
Proof.
  unfold validate, bind at 1, initResult. unfold bind at 1.
  rewrite fields_loop_run.
  destruct (afterFields host fns origin (requestData request origin) options
              {| errors := []; calls := calls st |}) as [[e|] st'];
    reflexivity.
Qed.

End Bridge.

(** ** Facts about the outcome *)

Section OutcomeFacts.
Variable host : Host.
Variable fns : RuleFunctions.

Lemma rulesRun_exn field value def data rules :
  snd (rulesRun fns field value def data rules) = None
  <-> Forall (fun rule => ruleThrows fns value def data rule = None) rules.
Proof.
  induction rules as [|rule rest IH]; cbn [rulesRun].
  - split; [constructor | reflexivity].
  - destruct (ruleThrows fns value def data rule) as [e|] eqn:Th.
    + split; [discriminate|]. intros H. inversion H; subst. congruence.
    + destruct (rulesRun fns field value def data rest) as [[messages made] exn].
      cbn [snd] in *. rewrite IH. split.
      * intros H. constructor; assumption.
      * intros H. inversion H; subst. assumption.
Qed.

Lemma rulesRun_ok field value def data rules :
  snd (rulesRun fns field value def data rules) = None ->
  rulesRun fns field value def data rules
  = (map (ruleMessageText fns field value def data)
       (filter (ruleFails fns value def data) rules),
     flat_map (ruleCalls fns value def data) rules,
     None).
Proof.
  induction rules as [|rule rest IH]; cbn [rulesRun].
  - reflexivity.
  - destruct (ruleThrows fns value def data rule) as [e|] eqn:Th.
    + discriminate.
    + destruct (rulesRun fns field value def data rest) as [[messages made] exn].
      cbn [snd]. intros ->. specialize (IH eq_refl).
      injection IH as -> ->.
      cbn [filter flat_map].
      destruct (ruleFails fns value def data rule); reflexivity.
Qed.

Lemma rulesRun_thrown field value def data rules e :
  snd (rulesRun fns field value def data rules) = Some e ->
  exists rule, In rule rules /\ ruleThrows fns value def data rule = Some e.
Proof.
  induction rules as [|rule rest IH]; cbn [rulesRun].
  - discriminate.
  - destruct (ruleThrows fns value def data rule) as [e'|] eqn:Th.
    + cbn [snd]. intros [= ->]. exists rule. split; [left; reflexivity | assumption].
    + destruct (rulesRun fns field value def data rest) as [[messages made] exn].
      cbn [snd] in *. intros H. destruct (IH H) as [r [Hin Hr]].
      exists r. split; [right; assumption | assumption].
Qed.

(** The calls a field gives rise to when nothing throws *)
Lemma fieldRun_ok origin data field def :
  snd (fieldRun host fns origin data field def) = None ->
  fieldRun host fns origin data field def
  = ((requiredFailure field def (getProp data field)
      ++ typeFailure host origin field def (getProp data field)
      ++ ruleFailures fns field def (getProp data field) data)%list,
     fieldCalls fns data field def,
     None).
Proof.
  unfold fieldRun, ruleFailures, fieldCalls.
  destruct (rulesApply def (getProp data field)).
  - destruct (rulesRun fns field (getProp data field) def data (rulesOf def))
      as [[messages made] exn] eqn:R.
    cbn [snd]. intros ->.
    assert (H : snd (rulesRun fns field (getProp data field) def data (rulesOf def)) = None)
      by (rewrite R; reflexivity).
    apply rulesRun_ok in H. rewrite R in H. injection H as -> ->. reflexivity.
  - reflexivity.
Qed.

Lemma fieldRun_thrown origin data field def e :
  snd (fieldRun host fns origin data field def) = Some e ->
  exists rule, In rule (rulesOf def)
               /\ ruleThrows fns (getProp data field) def data rule = Some e.
Proof.
  unfold fieldRun. destruct (rulesApply def (getProp data field)).
  - destruct (rulesRun fns field (getProp data field) def data (rulesOf def))
      as [[messages made] exn] eqn:R.
    cbn [snd]. intros ->. apply (rulesRun_thrown field).
    rewrite R. reflexivity.
  - discriminate.
Qed.

Lemma afterField_errors origin data field def st :
  errors (afterField host fns origin data field def st)
  = addMessages origin field def (getProp data field)
      (fst (fst (fieldRun host fns origin data field def))) (errors st).
Proof.
  unfold afterField.
  destruct (fieldRun host fns origin data field def) as [[messages made] exn].
  reflexivity.
Qed.

Lemma afterField_calls origin data field def st :
  calls (afterField host fns origin data field def st)
  = (calls st ++ snd (fst (fieldRun host fns origin data field def)))%list.
Proof.
  unfold afterField.
  destruct (fieldRun host fns origin data field def) as [[messages made] exn].
  reflexivity.
Qed.

Lemma afterFields_NoDup origin data options st :
  NoDup (entryFields (errors st)) ->
  NoDup (entryFields (errors (snd (afterFields host fns origin data options st)))).
Proof.
  revert st. induction options as [|[field def] rest IH]; intros st H; cbn [afterFields].
  - assumption.
  - assert (H' : NoDup (entryFields (errors (afterField host fns origin data field def st)))).
    { rewrite afterField_errors. apply addMessages_NoDup. assumption. }
    destruct (snd (fieldRun host fns origin data field def)).
    + assumption.
    + apply IH. assumption.
Qed.

Lemma afterFields_thrown origin data options st e :
  fst (afterFields host fns origin data options st) = Some e ->
  exists field def rule,
    In (field, def) options /\ In rule (rulesOf def)
    /\ ruleThrows fns (getProp data field) def data rule = Some e.
Proof.
  revert st. induction options as [|[field def] rest IH]; intros st; cbn [afterFields].
  - discriminate.
  - destruct (snd (fieldRun host fns origin data field def)) as [e'|] eqn:F.
    + cbn [fst]. intros [= ->].
      destruct (fieldRun_thrown origin data field def e F) as [rule [Hin Hr]].
      exists field, def, rule. split; [left; reflexivity | split; assumption].
    + intros H. destruct (IH _ H) as [f [d [r [Hin [Hr Ht]]]]].
      exists f, d, r. split; [right; assumption | split; assumption].
Qed.

Lemma afterFields_completes origin data options st :
  fst (afterFields host fns origin data options st) = None
  <-> Forall (fun entry =>
                snd (fieldRun host fns origin data (fst entry) (snd entry)) = None)
        options.
Proof.
  revert st. induction options as [|[field def] rest IH]; intros st; cbn [afterFields].
  - split; [constructor | reflexivity].
  - destruct (snd (fieldRun host fns origin data field def)) as [e'|] eqn:F.
    + split; [discriminate|]. intros H. inversion H; subst. cbn [fst snd] in *. congruence.
    + rewrite IH. split.
      * intros H. constructor; assumption.
      * intros H. inversion H; assumption.
Qed.

Lemma afterFields_calls origin data options st :
  fst (afterFields host fns origin data options st) = None ->
  calls (snd (afterFields host fns origin data options st))
  = (calls st
     ++ flat_map (fun entry => fieldCalls fns data (fst entry) (snd entry)) options)%list.
Proof.
  revert st. induction options as [|[field def] rest IH]; intros st; cbn [afterFields].
  - intros _. cbn [snd flat_map]. rewrite app_nil_r. reflexivity.
  - destruct (snd (fieldRun host fns origin data field def)) as [e'|] eqn:F.
    + discriminate.
    + intros H. rewrite (IH _ H), afterField_calls, (fieldRun_ok origin data field def F).
      cbn [fst snd flat_map]. rewrite app_assoc. reflexivity.
Qed.

Lemma afterFields_report origin data options st :
  NoDup (map fst options) ->
  (forall field, In field (entryFields (errors st)) -> ~ In field (map fst options)) ->
  fst (afterFields host fns origin data options st) = None ->
  errors (snd (afterFields host fns origin data options st))
  = (errors st ++ flat_map (fieldEntry host fns origin data) options)%list.
Proof.
  revert st. induction options as [|[field def] rest IH]; intros st ND Fresh; cbn [afterFields].
  - intros _. cbn [snd flat_map]. rewrite app_nil_r. reflexivity.
  - destruct (snd (fieldRun host fns origin data field def)) as [e'|] eqn:F.
    + discriminate.
    + intros H. inversion ND as [|x xs Hnotin ND']; subst.
      assert (Hf : ~ In field (entryFields (errors st))).
      { intros Hin. apply (Fresh _ Hin). left; reflexivity. }
      assert (E : errors (afterField host fns origin data field def st)
                  = (errors st ++ fieldEntry host fns origin data (field, def))%list).
      { rewrite afterField_errors, (fieldRun_ok origin data field def F). cbn [fst].
        rewrite addMessages_fresh by assumption. reflexivity. }
      rewrite IH; try assumption.
      * rewrite E. cbn [flat_map]. rewrite app_assoc. reflexivity.
      * intros name Hin. rewrite E in Hin. unfold entryFields in Hin.
        rewrite map_app in Hin. apply in_app_or in Hin. destruct Hin as [Hin|Hin].
        -- intros Hrest. apply (Fresh _ Hin). right; assumption.
        -- assert (name = field).
           { unfold fieldEntry in Hin.
             destruct (requiredFailure field def (getProp data field) ++
                       typeFailure host origin field def (getProp data field) ++
                       ruleFailures fns field def (getProp data field) data)%list;
               simpl in Hin; [contradiction | destruct Hin as [<-|[]]; reflexivity]. }
           subst name. assumption.
Qed.

Lemma afterFields_empty origin data options st :
  fst (afterFields host fns origin data options st) = None ->
  (errors (snd (afterFields host fns origin data options st)) = []
   <-> errors st = []
       /\ Forall (fun entry =>
                    fst (fst (fieldRun host fns origin data (fst entry) (snd entry))) = [])
            options).
Proof.
  revert st. induction options as [|[field def] rest IH]; intros st; cbn [afterFields].
  - intros _. cbn [snd]. split; [intros H; split; [assumption | constructor] | tauto].
  - destruct (snd (fieldRun host fns origin data field def)) as [e'|] eqn:F.
    + discriminate.
    + intros H. rewrite (IH _ H), afterField_errors, addMessages_nil_iff.
      cbn [fst snd]. split.
      * intros [[Hm He] Hrest]. split; [assumption | constructor; assumption].
      * intros [He Hall]. inversion Hall; subst. tauto.
Qed.

End OutcomeFacts.

(** ** The engine's tests and the specification's words *)

Section Reflection.
Variable host : Host.
Variable fns : RuleFunctions.

Lemma isRequired_Required def : isRequired def = true <-> Required def.
Proof.
  unfold isRequired, Required.
  destruct (def_required def) as [[[|]|s]|]; split; intros H;
    try reflexivity; try discriminate; try (left; reflexivity);
    try (right; exists s; reflexivity);
    destruct H as [H|[s' H]]; discriminate.
Qed.

Lemma isEmpty_Present value : isEmpty value = false <-> Present value.
Proof.
  unfold Present. destruct value; simpl; split; intros H;
    try discriminate; try reflexivity;
    try (split; discriminate); destruct H as [H1 H2]; congruence.
Qed.

Lemma valueFilled_Filled value : valueFilled value = true <-> Filled value.
Proof.
  unfold Filled, Present. destruct value as [| |b|n|s|items|props]; simpl.
  - split; [discriminate | intros [[H _] _]; congruence].
  - split; [discriminate | intros [[_ H] _]; congruence].
  - split; [intros _; repeat split; discriminate | reflexivity].
  - split; [intros _; repeat split; discriminate | reflexivity].
  - destruct s as [|c s]; simpl.
    + split; [discriminate | intros [_ [H _]]; congruence].
    + split; [intros _; repeat split; discriminate | reflexivity].
  - destruct items as [|x items]; simpl.
    + split; [discriminate | intros [_ [_ H]]; congruence].
    + split; [intros _; repeat split; discriminate | reflexivity].
  - split; [intros _; repeat split; discriminate | reflexivity].
Qed.

Lemma Filled_Present value : Filled value -> Present value.
Proof. intros [H _]; exact H. Qed.

Lemma lower_bool_spec s :
  (String.eqb (toLowerCase s) "true" || String.eqb (toLowerCase s) "false") = true
  <-> toLowerCase s = "true" \/ toLowerCase s = "false".
Proof.
  rewrite orb_true_iff, !String.eqb_eq. reflexivity.
Qed.

Lemma typeMismatch_Passes origin t value :
  Present value ->
  (typeMismatch host origin t value = false <-> PassesTypeCheck host origin t value).
Proof.
  intros P. apply isEmpty_Present in P.
  destruct t; unfold typeMismatch, PassesTypeCheck.
  - destruct value; split; intros H; try discriminate; try reflexivity;
      try (eexists; reflexivity); destruct H; discriminate.
  - destruct value; simpl; split; intros H; try discriminate; reflexivity.
  - destruct value; split; intros H; try discriminate; try reflexivity;
      try (eexists; reflexivity); destruct H; discriminate.
  - assert (Q : match value with
                | VString (String _ _ as s) =>
                    negb (String.eqb (toLowerCase s) "true"
                          || String.eqb (toLowerCase s) "false")
                | _ => false
                end = false
                <-> (forall s, value = VString s -> s <> "" ->
                     toLowerCase s = "true" \/ toLowerCase s = "false")).
    { destruct value as [| | | |s| |];
        try (split; [intros _ s' E; discriminate | reflexivity]).
      destruct s as [|c s].
      - split; [intros _ s' [= <-] N; congruence | reflexivity].
      - rewrite negb_false_iff, lower_bool_spec. split.
        + intros H s' [= <-] _. exact H.
        + intros H. apply (H _ eq_refl). discriminate. }
    destruct origin; try exact Q.
    destruct value; split; intros H; try discriminate; try reflexivity;
      try (eexists; reflexivity); destruct H; discriminate.
  - destruct (dateGetTime host value) as [n|e].
    + destruct n; split; intros H; try discriminate; try reflexivity.
      * destruct H as [n [[= <-] N]]. congruence.
      * eexists; split; [reflexivity | discriminate].
      * eexists; split; [reflexivity | discriminate].
    + split; [discriminate | intros [n [H _]]; discriminate].
  - destruct (parseInt host value); simpl; split; intros H;
      try discriminate; try reflexivity; try (eexists; reflexivity);
      destruct H; discriminate.
  - destruct (parseFloat host value); simpl; split; intros H;
      try discriminate; try reflexivity; try (eexists; reflexivity);
      destruct H; discriminate.
  - destruct (parseInt host value); simpl; split; intros H;
      try discriminate; try reflexivity; try (eexists; reflexivity);
      destruct H; discriminate.
  - destruct (parseInt host value); simpl; split; intros H;
      try discriminate; try reflexivity; try (eexists; reflexivity);
      destruct H; discriminate.
  - destruct (parseFloat host value); simpl; split; intros H;
      try discriminate; try reflexivity; try (eexists; reflexivity);
      destruct H; discriminate.
Qed.

Lemma RulePasses_spec value def data rule :
  RulePasses fns value def data rule
  <-> ruleFails fns value def data rule = false
      /\ ruleThrows fns value def data rule = None.
Proof.
  unfold RulePasses, ruleFails, ruleThrows.
  destruct (callValidator fns (rule_validator rule) value def data) as [r|e].
  - destruct (truthy r) eqn:T; simpl.
    + split; [auto | intros _; exists r; auto].
    + split; [intros [r' [[= <-] H]]; congruence | intros [H _]; discriminate].
  - split; [intros [r [H _]]; discriminate | intros [_ H]; discriminate].
Qed.

Lemma requiredFailure_nil field def value :
  requiredFailure field def value = [] <-> (Required def -> Filled value).
Proof.
  unfold requiredFailure. rewrite <- isRequired_Required, <- valueFilled_Filled.
  destruct (isRequired def), (valueFilled value); simpl; split; intros H;
    try reflexivity; try discriminate; auto.
  discriminate (H eq_refl).
Qed.

Lemma typeFailure_nil origin field def value :
  typeFailure host origin field def value = []
  <-> (Present value -> PassesTypeCheck host origin (fieldTypeOf def) value).
Proof.
  unfold typeFailure. destruct (isEmpty value) eqn:E; cbn [negb andb].
  - split; [|reflexivity]. intros _ P. apply isEmpty_Present in P. congruence.
  - apply isEmpty_Present in E.
    rewrite <- (typeMismatch_Passes origin (fieldTypeOf def) value E).
    destruct (typeMismatch host origin (fieldTypeOf def) value); split; intros H;
      try reflexivity; try discriminate; auto.
    discriminate (H E).
Qed.

Lemma filter_nil_iff {A} (f : A -> bool) xs :
  filter f xs = [] <-> Forall (fun x => f x = false) xs.
Proof.
  induction xs as [|x rest IH]; simpl.
  - split; [constructor | reflexivity].
  - destruct (f x) eqn:E.
    + split; [discriminate | intros H; inversion H; congruence].
    + rewrite IH. split; [constructor; assumption | intros H; inversion H; assumption].
Qed.

Lemma field_conforms_iff origin data field def :
  snd (fieldRun host fns origin data field def) = None ->
  (fst (fst (fieldRun host fns origin data field def)) = []
   <-> FieldConforms host fns origin data (field, def)).
Proof.
  intros Ok. rewrite (fieldRun_ok host fns origin data field def Ok). cbn [fst].
  assert (NoThrow : rulesApply def (getProp data field) = true ->
                    Forall (fun rule => ruleThrows fns (getProp data field) def data rule = None)
                      (rulesOf def)).
  { intros A. unfold fieldRun in Ok. rewrite A in Ok.
    destruct (rulesRun fns field (getProp data field) def data (rulesOf def))
      as [[messages made] exn] eqn:R.
    cbn [snd] in Ok. apply (rulesRun_exn fns field (getProp data field) def data). rewrite R. exact Ok. }
  unfold FieldConforms. cbn [fst snd].
  set (value := getProp data field) in *.
  split.
  - intros H. apply app_eq_nil in H. destruct H as [Hr H].
    apply app_eq_nil in H. destruct H as [Ht Hrules].
    pose proof (proj1 (requiredFailure_nil field def value) Hr) as Hr'.
    pose proof (proj1 (typeFailure_nil origin field def value) Ht) as Ht'.
    split; [exact Hr'|]. intros P. split; [exact (Ht' P)|].
    assert (A : rulesApply def value = true).
    { unfold rulesApply. apply isEmpty_Present in P. rewrite P. apply orb_true_r. }
    unfold ruleFailures in Hrules. rewrite A in Hrules.
    apply map_eq_nil in Hrules. apply filter_nil_iff in Hrules.
    specialize (NoThrow A). rewrite Forall_forall in *.
    intros rule Hin. apply RulePasses_spec. split; auto.
  - intros [Hr Hp].
    assert (Er : requiredFailure field def value = []) by (apply requiredFailure_nil; exact Hr).
    assert (Et : typeFailure host origin field def value = []).
    { apply typeFailure_nil. intros P. apply (Hp P). }
    rewrite Er, Et. cbn [app]. unfold ruleFailures.
    destruct (rulesApply def value) eqn:A; [|reflexivity].
    assert (P : Present value).
    { unfold rulesApply in A. apply orb_true_iff in A. destruct A as [A|A].
      - apply Filled_Present. apply Hr. apply isRequired_Required. exact A.
      - apply isEmpty_Present. apply negb_true_iff. exact A. }
    destruct (Hp P) as [_ Hrules].
    replace (filter (ruleFails fns value def data) (rulesOf def)) with (@nil RuleType);
      [reflexivity|].
    symmetry. apply filter_nil_iff. rewrite Forall_forall in *.
    intros rule Hin. apply (RulePasses_spec value def data rule). auto.
Qed.

End Reflection.

(** ** Properties of [validate] *)

(** C1: a returned result has an empty [errors] list if and only if the data
    satisfies the schema: every required field is filled, and every field
    whose value is present passes the check of its declared type and all of
    its declared rules. *)
Theorem validate_errors_empty_iff
    (host : Host) (fns : RuleFunctions) (request : Request)
    (origin : DataOriginType) (options : ValidateOptions)
    (st st' : State) (result : ValidationResult) :
  validate host fns request origin options st = (Normal result, st') ->
  (List.length (res_errors result) = 0
   <-> SatisfiesSchema host fns origin (requestData request origin) options).
Proof.
  rewrite validate_run.
  destruct (afterFields host fns origin (requestData request origin) options
              {| errors := []; calls := calls st |}) as [exn final] eqn:Run.
  destruct exn as [e|]; [discriminate|]. intros [= <- <-].
  assert (Ok : fst (afterFields host fns origin (requestData request origin) options
                      {| errors := []; calls := calls st |}) = None)
    by (rewrite Run; reflexivity).
  pose proof (afterFields_empty host fns origin (requestData request origin) options {| errors := []; calls := calls st |} Ok) as Empty.
  rewrite Run in Empty. cbn [snd errors] in Empty.
  apply afterFields_completes in Ok.
  cbn [res_errors resultOf]. rewrite length_zero_iff_nil, Empty.
  unfold SatisfiesSchema. rewrite !Forall_forall in *. split.
  - intros [_ H] [field def] Hin.
    apply field_conforms_iff; [exact (Ok _ Hin) | exact (H _ Hin)].
  - intros H. split; [reflexivity|]. intros [field def] Hin.
    apply field_conforms_iff; [exact (Ok _ Hin) | exact (H _ Hin)].
Qed.

Lemma validate_errors_empty_iff_witness :
  List.length (res_errors (resultOf [])) = 0
  <-> SatisfiesSchema Fixtures.host Fixtures.rules Body
        [("name", VString "ada"); ("age", VString "abc")]
        [("name", Fixtures.field TString (Some (RequiredBool true))
                    [Fixtures.rule 3 None]);
         ("age", Fixtures.field TInt None [])].
Proof.
  apply (validate_errors_empty_iff Fixtures.host Fixtures.rules
           (Fixtures.bodyRequest [("name", VString "ada"); ("age", VString "abc")])
           Body _ Fixtures.start
           ( {| errors := [];
                      calls := [ValidatorCall 3 (VString "ada")
                                  (Fixtures.field TString (Some (RequiredBool true))
                                     [Fixtures.rule 3 None])
                                  [("name", VString "ada"); ("age", VString "abc")]] |}) (resultOf [])).
  reflexivity.
Defined.

Lemma flat_map_fieldEntry_In host fns origin data options entry :
  In entry (flat_map (fieldEntry host fns origin data) options) ->
  exists def,
    In (err_field entry, def) options
    /\ entry = mkError origin (err_field entry) def (getProp data (err_field entry))
                 (requiredFailure (err_field entry) def (getProp data (err_field entry))
                  ++ typeFailure host origin (err_field entry) def
                       (getProp data (err_field entry))
                  ++ ruleFailures fns (err_field entry) def
                       (getProp data (err_field entry)) data)%list.
Proof.
  intros H. apply in_flat_map in H. destruct H as [[field def] [Hin He]].
  unfold fieldEntry in He.
  destruct (requiredFailure field def (getProp data field) ++
            typeFailure host origin field def (getProp data field) ++
            ruleFailures fns field def (getProp data field) data)%list
    as [|m rest] eqn:Msgs; [contradiction|].
  destruct He as [<-|[]]. cbn [err_field mkError].
  exists def. split; [exact Hin|]. rewrite Msgs. reflexivity.
Qed.

(** C2: the returned [errors] list holds at most one entry per field; when
    the schema's keys are distinct, as the keys of an object are, it holds
    in schema order exactly one entry for each field that produced a
    message, and that entry's message list is the required-failure message
    (if any), then the type-mismatch message (if any), then the
    rule-failure messages in the declared rule order. *)
Theorem validate_one_entry_per_field
    (host : Host) (fns : RuleFunctions) (request : Request)
    (origin : DataOriginType) (options : ValidateOptions)
    (st st' : State) (result : ValidationResult) :
  validate host fns request origin options st = (Normal result, st') ->
  let data := requestData request origin in
  NoDup (entryFields (res_errors result))
  /\ (NoDup (map fst options) ->
      res_errors result = flat_map (fieldEntry host fns origin data) options
      /\ forall entry, In entry (res_errors result) ->
           exists def,
             In (err_field entry, def) options
             /\ err_message entry
                = (requiredFailure (err_field entry) def (getProp data (err_field entry))
                   ++ typeFailure host origin (err_field entry) def
                        (getProp data (err_field entry))
                   ++ ruleFailures fns (err_field entry) def
                        (getProp data (err_field entry)) data)%list).
Proof.
  rewrite validate_run. intros Run data.
  destruct (afterFields host fns origin (requestData request origin) options
              {| errors := []; calls := calls st |}) as [exn final] eqn:After.
  destruct exn as [e|]; [discriminate|]. injection Run as <- <-.
  cbn [res_errors resultOf]. split.
  - pose proof (afterFields_NoDup host fns origin (requestData request origin) options
                  {| errors := []; calls := calls st |}) as ND.
    rewrite After in ND. apply ND. constructor.
  - intros Keys.
    assert (Report : errors final = flat_map (fieldEntry host fns origin data) options).
    { pose proof (afterFields_report host fns origin (requestData request origin) options
                    {| errors := []; calls := calls st |} Keys) as R.
      rewrite After in R. apply R; [intros field [] | reflexivity]. }
    split; [exact Report|].
    intros entry Hin. rewrite Report in Hin.
    destruct (flat_map_fieldEntry_In host fns origin data options entry Hin) as [def [Hdef E]].
    exists def. split; [exact Hdef|].
    rewrite E at 1. reflexivity.
Qed.

Lemma validate_one_entry_per_field_witness :
  let name := Fixtures.field TString (Some (RequiredBool true)) [Fixtures.rule 3 None] in
  let tags := Fixtures.field TArray (Some (RequiredString "tags are needed"))
                [Fixtures.rule 1 (Some (MessageString "too few")); Fixtures.rule 1 None] in
  let data := [("name", VString "bob"); ("tags", VString "")] in
  NoDup (map fst [("name", name); ("tags", tags)])
  /\ [mkError Body "name" name (VString "bob") ["`name` value is not valid"];
      mkError Body "tags" tags (VString "")
        ["tags are needed"; "The value of `tags` must be a valid array";
         "too few"; "`tags` value is not valid"]]
     = flat_map (fieldEntry Fixtures.host Fixtures.rules Body data)
         [("name", name); ("tags", tags)].
Proof.
  cbv zeta.
  assert (Keys : NoDup (map fst
                          [("name", Fixtures.field TString (Some (RequiredBool true))
                                      [Fixtures.rule 3 None]);
                           ("tags", Fixtures.field TArray
                                      (Some (RequiredString "tags are needed"))
                                      [Fixtures.rule 1 (Some (MessageString "too few"));
                                       Fixtures.rule 1 None])])).
  { constructor; [intros [E|[]]; discriminate E|].
    constructor; [intros []|constructor]. }
  split; [exact Keys|].
  refine (proj1 (proj2 (validate_one_entry_per_field Fixtures.host Fixtures.rules
                          (Fixtures.bodyRequest [("name", VString "bob"); ("tags", VString "")])
                          Body _ Fixtures.start _ (resultOf _) _) Keys)).
  reflexivity.
Defined.

(** ** Single checks *)

Lemma silent_not_records m error : silent m -> records m error -> False.
Proof.
  intros S R.
  specialize (S {| errors := []; calls := [] |}).
  specialize (R {| errors := []; calls := [] |}).
  rewrite S in R. discriminate R.
Qed.

Lemma typeValidation_silent host origin field def value :
  typeFailure host origin field def value = [] ->
  silent (typeValidation host origin field def value).
Proof.
  intros H st. rewrite typeValidation_run, H. cbn [addMessages fold_left].
  rewrite state_eta. reflexivity.
Qed.

Lemma typeValidation_records host origin field def value :
  typeFailure host origin field def value <> [] ->
  records (typeValidation host origin field def value)
    (mkError origin field def value [typeErrorMessage field def]).
Proof.
  intros H st. rewrite typeValidation_run, addError_run.
  unfold typeFailure in *.
  destruct (negb (isEmpty value) && typeMismatch host origin (fieldTypeOf def) value);
    [reflexivity | contradiction].
Qed.

Lemma requiredValidation_silent origin field def value :
  requiredFailure field def value = [] ->
  silent (requiredValidation origin field def value).
Proof.
  intros H st. rewrite requiredValidation_run, H. cbn [addMessages fold_left].
  rewrite state_eta. reflexivity.
Qed.

Lemma requiredValidation_records origin field def value :
  requiredFailure field def value <> [] ->
  records (requiredValidation origin field def value)
    (mkError origin field def value [requiredMessage field def]).
Proof.
  intros H st. rewrite requiredValidation_run, addError_run.
  unfold requiredFailure in *.
  destruct (isRequired def && negb (valueFilled value));
    [reflexivity | contradiction].
Qed.

Lemma numericParse_string host t s :
  completes (numericParse host t (VString s)) = true.
Proof. destruct t; reflexivity. Qed.

Lemma typeFailure_numeric host origin field def value :
  isNumericType (fieldTypeOf def) = true ->
  typeFailure host origin field def value
  = if negb (isEmpty value)
       && negb (completes (numericParse host (fieldTypeOf def) value))
    then [typeErrorMessage field def] else [].
Proof.
  unfold typeFailure, typeMismatch, numericParse.
  destruct (fieldTypeOf def); try discriminate; reflexivity.
Qed.

(** C3: for the schema [{ age: { type: "int" } }] and the body
    [{ age: "abc" }] no error is recorded: the integer parse of ["abc"]
    yields [NaN] without throwing.  For each of the types int, long,
    timestamp, double and decimal the type check records an error exactly
    when the parse throws, which it never does on a string. *)
Theorem numeric_check_accepts_any_string (host : Host) (fns : RuleFunctions) :
  (forall q p st,
      validate host fns
        {| query := q; body := [("age", VString "abc")]; params := p |} Body
        [("age", {| def_type := TypeOnly TInt; def_required := None;
                    def_rules := None |})] st
      = (Normal {| res_message := Some ""; res_errors := [] |},
         {| errors := []; calls := calls st |}))
  /\ parseInt host (VString "abc") = Normal NumNaN
  /\ (forall origin field def,
        isNumericType (fieldTypeOf def) = true ->
        (forall s, silent (typeValidation host origin field def (VString s)))
        /\ (forall value,
              isEmpty value = false ->
              (completes (numericParse host (fieldTypeOf def) value) = true ->
               silent (typeValidation host origin field def value))
              /\ (completes (numericParse host (fieldTypeOf def) value) = false ->
                  records (typeValidation host origin field def value)
                    (mkError origin field def value [typeErrorMessage field def])))
        /\ (forall request s st,
              getProp (requestData request origin) field = VString s ->
              validate host fns request origin
                [(field, {| def_type := def_type def; def_required := None;
                            def_rules := None |})] st
              = (Normal {| res_message := Some ""; res_errors := [] |},
                 {| errors := []; calls := calls st |}))).
Proof.
  split; [|split].
  - intros q p st. reflexivity.
  - reflexivity.
  - intros origin field def Num. split; [|split].
    + intros s. apply typeValidation_silent.
      rewrite typeFailure_numeric by exact Num.
      rewrite numericParse_string. reflexivity.
    + intros value Present. split; intros H.
      * apply typeValidation_silent. rewrite typeFailure_numeric by exact Num.
        rewrite H, andb_false_r. reflexivity.
      * apply typeValidation_records. rewrite typeFailure_numeric by exact Num.
        rewrite H, Present. discriminate.
    + intros request s st Value.
      set (def' := {| def_type := def_type def; def_required := None;
                      def_rules := None |}).
      assert (Num' : isNumericType (fieldTypeOf def') = true) by exact Num.
      unfold validate, bind at 1, initResult. unfold bind at 1.
      cbn [forOf fst snd]. unfold bind at 1.
      rewrite validateField_run. unfold afterField, fieldRun.
      rewrite Value. unfold rulesApply, requiredFailure.
      rewrite typeFailure_numeric by exact Num'.
      rewrite numericParse_string.
      cbn. rewrite app_nil_r. reflexivity.
Qed.

Lemma numeric_check_accepts_any_string_witness :
  isNumericType (fieldTypeOf (Fixtures.field TDecimal None [])) = true
  /\ silent (typeValidation Fixtures.host Query "price"
               (Fixtures.field TDecimal None []) (VString "twelve")).
Proof.
  split; [reflexivity|].
  destruct (numeric_check_accepts_any_string Fixtures.host Fixtures.rules)
    as [_ [_ H]].
  destruct (H Query "price" (Fixtures.field TDecimal None []) eq_refl) as [S _].
  exact (S "twelve").
Defined.

Lemma typeFailure_bool_query host origin field def s :
  fieldTypeOf def = TBool ->
  origin = Query \/ origin = Params ->
  typeFailure host origin field def (VString s)
  = if negb (String.eqb s "")
       && negb (String.eqb (toLowerCase s) "true"
                || String.eqb (toLowerCase s) "false")
    then [typeErrorMessage field def] else [].
Proof.
  intros T O. unfold typeFailure, typeMismatch. rewrite T.
  destruct O as [-> | ->]; destruct s as [|c s]; reflexivity.
Qed.

Lemma typeFailure_bool_body host field def value :
  fieldTypeOf def = TBool ->
  typeFailure host Body field def value
  = match value with
    | VUndefined | VNull | VBool _ => []
    | _ => [typeErrorMessage field def]
    end.
Proof.
  intros T. unfold typeFailure, typeMismatch. rewrite T.
  destruct value; reflexivity.
Qed.

Lemma keys_determine {A} (l : list (string * A)) k a b :
  NoDup (map fst l) -> In (k, a) l -> In (k, b) l -> a = b.
Proof.
  induction l as [|[k' c] rest IH]; intros ND Ha Hb; [contradiction|].
  inversion ND as [|x xs Hnotin ND']; subst.
  destruct Ha as [Ha|Ha], Hb as [Hb|Hb].
  - congruence.
  - injection Ha as -> ->. exfalso. apply Hnotin.
    apply in_map_iff. exists (k, b). split; [reflexivity | exact Hb].
  - injection Hb as -> ->. exfalso. apply Hnotin.
    apply in_map_iff. exists (k, a). split; [reflexivity | exact Ha].
  - exact (IH ND' Ha Hb).
Qed.

(** What the report of a run holds for one field of a schema with distinct
    keys: the entry made of its messages, and no other entry. *)
Lemma validate_field_report host fns request origin options st result st' field def :
  NoDup (map fst options) ->
  In (field, def) options ->
  validate host fns request origin options st = (Normal result, st') ->
  let data := requestData request origin in
  let value := getProp data field in
  let messages :=
    (requiredFailure field def value ++ typeFailure host origin field def value
     ++ ruleFailures fns field def value data)%list in
  (messages <> [] ->
   In {| err_origin := origin; err_field := field; err_type := fieldTypeOf def;
         err_value := value; err_message := messages |} (res_errors result))
  /\ (forall entry,
        In entry (res_errors result) -> err_field entry = field ->
        err_message entry = messages /\ messages <> []).
Proof.
  intros Keys Hin. rewrite validate_run.
  destruct (afterFields host fns origin (requestData request origin) options
              {| errors := []; calls := calls st |}) as [exn final] eqn:After.
  destruct exn as [e|]; [discriminate|]. intros [= <- <-] data value messages.
  cbn [res_errors resultOf].
  assert (Report : errors final = flat_map (fieldEntry host fns origin data) options).
  { pose proof (afterFields_report host fns origin data options
                  {| errors := []; calls := calls st |} Keys) as R.
    unfold data in R |- *. rewrite After in R.
    apply R; [intros name [] | reflexivity]. }
  rewrite Report. split.
  - intros NonEmpty. apply in_flat_map. exists (field, def). split; [exact Hin|].
    unfold fieldEntry. fold value. fold messages.
    destruct messages as [|m rest]; [contradiction | left; reflexivity].
  - intros entry Hentry Field. apply in_flat_map in Hentry.
    destruct Hentry as [[field' def'] [Hin' He]].
    unfold fieldEntry in He.
    destruct (requiredFailure field' def' (getProp data field') ++
              typeFailure host origin field' def' (getProp data field') ++
              ruleFailures fns field' def' (getProp data field') data)%list
      as [|m rest] eqn:Msgs; [contradiction|].
    destruct He as [<-|[]]. cbn [err_field err_message mkError] in *. subst field'.
    assert (def' = def) by exact (keys_determine options field def' def Keys Hin' Hin).
    subst def'. unfold messages, value. rewrite Msgs. split; [reflexivity | discriminate].
Qed.

Lemma typeErrorMessage_bool field def :
  fieldTypeOf def = TBool ->
  typeErrorMessage field def
  = match def_type def with
    | TypeWithMessage _ custom => custom
    | TypeOnly _ => "The value of `" ++ field ++ "` must be a valid bool"
    end.
Proof.
  unfold typeErrorMessage, fieldTypeOf.
  destruct (def_type def); [intros ->; reflexivity | reflexivity].
Qed.

(** C6: for a field of declared type bool, under origin query or params a
    string that is ["true"] or ["false"] in any casing produces no type
    error and any other non-empty string produces the type-mismatch error;
    under origin body the type-mismatch error is produced exactly when the
    present value is not a native boolean.  This is stated on the check
    itself and on the report [validate] returns for a schema with distinct
    keys: where the error is produced the report holds the field's entry,
    with the origin, the type bool, the value and the type message (the
    custom one, or ["The value of `<field>` must be a valid bool"]) placed
    after the required message and before the rule messages; where it is
    not, the field's entry, if any, holds only required and rule
    messages. *)
Theorem bool_check_by_origin
    (host : Host) (field : string) (def : FieldValidationOptions) :
  fieldTypeOf def = TBool ->
  (forall origin s,
      origin = Query \/ origin = Params ->
      (toLowerCase s = "true" \/ toLowerCase s = "false" ->
       silent (typeValidation host origin field def (VString s)))
      /\ (s <> "" -> toLowerCase s <> "true" -> toLowerCase s <> "false" ->
          records (typeValidation host origin field def (VString s))
            (mkError origin field def (VString s) [typeErrorMessage field def])))
  /\ (forall value,
        (records (typeValidation host Body field def value)
           (mkError Body field def value [typeErrorMessage field def])
         <-> Present value /\ forall b, value <> VBool b)
        /\ (silent (typeValidation host Body field def value)
            <-> ~ (Present value /\ forall b, value <> VBool b)))
  /\ (forall fns request origin options st result st' s,
        origin = Query \/ origin = Params ->
        NoDup (map fst options) -> In (field, def) options ->
        getProp (requestData request origin) field = VString s ->
        validate host fns request origin options st = (Normal result, st') ->
        (toLowerCase s = "true" \/ toLowerCase s = "false" ->
         forall entry,
           In entry (res_errors result) -> err_field entry = field ->
           err_message entry
           = ruleFailures fns field def (VString s) (requestData request origin))
        /\ (s <> "" -> toLowerCase s <> "true" -> toLowerCase s <> "false" ->
            In {| err_origin := origin; err_field := field; err_type := TBool;
                  err_value := VString s;
                  err_message :=
                    match def_type def with
                    | TypeWithMessage _ custom => custom
                    | TypeOnly _ =>
                        "The value of `" ++ field ++ "` must be a valid bool"
                    end
                    :: ruleFailures fns field def (VString s)
                         (requestData request origin) |}
              (res_errors result)))
  /\ (forall fns request options st result st' value,
        NoDup (map fst options) -> In (field, def) options ->
        getProp (requestData request Body) field = value ->
        validate host fns request Body options st = (Normal result, st') ->
        (Present value /\ (forall b, value <> VBool b) ->
         In {| err_origin := Body; err_field := field; err_type := TBool;
               err_value := value;
               err_message :=
                 (requiredFailure field def value
                  ++ match def_type def with
                     | TypeWithMessage _ custom => custom
                     | TypeOnly _ =>
                         ("The value of `" ++ field ++ "` must be a valid bool")%string
                     end
                     :: ruleFailures fns field def value (requestData request Body))%list |}
           (res_errors result))
        /\ (~ (Present value /\ forall b, value <> VBool b) ->
            forall entry,
              In entry (res_errors result) -> err_field entry = field ->
              err_message entry
              = (requiredFailure field def value
                 ++ ruleFailures fns field def value (requestData request Body))%list)).
Proof.
  intros T. split; [|split; [|split]].
  - intros origin s O. split.
    + intros L. apply typeValidation_silent.
      rewrite (typeFailure_bool_query host origin field def s T O).
      apply lower_bool_spec in L. rewrite L, andb_false_r. reflexivity.
    + intros N L1 L2. apply typeValidation_records.
      rewrite (typeFailure_bool_query host origin field def s T O).
      apply String.eqb_neq in N, L1, L2. rewrite N, L1, L2. discriminate.
  - intros value.
    assert (Cases : (Present value /\ forall b, value <> VBool b)
                    \/ ~ (Present value /\ forall b, value <> VBool b)).
    { destruct value as [| |b| | | |];
        try (left; split; [split; discriminate | discriminate]);
        right; intros [[P1 P2] B];
        first [congruence | exact (B _ eq_refl)]. }
    assert (Rec : (Present value /\ forall b, value <> VBool b) ->
                  records (typeValidation host Body field def value)
                    (mkError Body field def value [typeErrorMessage field def])).
    { intros [[P1 P2] B]. apply typeValidation_records.
      rewrite (typeFailure_bool_body host field def value T).
      destruct value; try reflexivity;
        first [congruence | exfalso; exact (B _ eq_refl)]. }
    assert (Sil : ~ (Present value /\ forall b, value <> VBool b) ->
                  silent (typeValidation host Body field def value)).
    { intros N. apply typeValidation_silent.
      rewrite (typeFailure_bool_body host field def value T).
      destruct value; try reflexivity;
        exfalso; apply N; (split; [split; discriminate | discriminate]). }
    split; split; auto.
    + intros R. destruct Cases as [C|C]; [exact C|].
      exfalso. exact (silent_not_records _ _ (Sil C) R).
    + intros S C. exact (silent_not_records _ _ S (Rec C)).
  - intros fns request origin options st result st' s O Keys Hin Value Run.
    destruct (validate_field_report host fns request origin options st result st'
                field def Keys Hin Run) as [Has Only].
    rewrite Value in Has, Only.
    rewrite (typeFailure_bool_query host origin field def s T O) in Has, Only.
    split.
    + intros L entry Hentry Field.
      destruct (Only entry Hentry Field) as [-> _].
      apply lower_bool_spec in L. rewrite L, andb_false_r.
      assert (F : requiredFailure field def (VString s) = []).
      { unfold requiredFailure. destruct s as [|c s].
        - apply lower_bool_spec in L. destruct L as [L|L]; discriminate L.
        - cbn [valueFilled String.length Nat.eqb negb]. rewrite andb_false_r.
          reflexivity. }
      rewrite F. reflexivity.
    + intros N L1 L2.
      assert (F : requiredFailure field def (VString s) = []).
      { unfold requiredFailure. destruct s as [|c s]; [contradiction|].
        cbn [valueFilled String.length Nat.eqb negb]. rewrite andb_false_r.
        reflexivity. }
      apply String.eqb_neq in N, L1, L2. rewrite N, L1, L2, F in Has.
      cbn [negb orb andb app] in Has. rewrite T in Has.
      rewrite <- (typeErrorMessage_bool field def T). apply Has. discriminate.
  - intros fns request options st result st' value Keys Hin Value Run.
    destruct (validate_field_report host fns request Body options st result st'
                field def Keys Hin Run) as [Has Only].
    rewrite Value in Has, Only.
    rewrite (typeFailure_bool_body host field def value T) in Has, Only.
    rewrite T in Has. split.
    + intros [[P1 P2] B]. rewrite <- (typeErrorMessage_bool field def T).
      destruct value; first [congruence | exfalso; exact (B _ eq_refl) | idtac];
        (apply Has; intros E; apply app_eq_nil in E; destruct E as [_ E];
         discriminate E).
    + intros N entry Hentry Field.
      destruct (Only entry Hentry Field) as [-> _].
      destruct value; try reflexivity;
        exfalso; apply N; (split; [split; discriminate | discriminate]).
Qed.

Lemma bool_check_by_origin_witness :
  fieldTypeOf (Fixtures.field TBool None []) = TBool
  /\ silent (typeValidation Fixtures.host Query "active"
               (Fixtures.field TBool None []) (VString "TrUe"))
  /\ records (typeValidation Fixtures.host Params "active"
                (Fixtures.field TBool None []) (VString "yes"))
       (mkError Params "active" (Fixtures.field TBool None []) (VString "yes")
          ["The value of `active` must be a valid bool"])
  /\ records (typeValidation Fixtures.host Body "active"
                (Fixtures.field TBool None []) (VString "true"))
       (mkError Body "active" (Fixtures.field TBool None []) (VString "true")
          ["The value of `active` must be a valid bool"])
  /\ In {| err_origin := Query; err_field := "active"; err_type := TBool;
           err_value := VString "yes";
           err_message := ["The value of `active` must be a valid bool"] |}
       (res_errors
          (resultOf
             [{| err_origin := Query; err_field := "name"; err_type := TString;
                 err_value := VUndefined;
                 err_message := ["The field `name` is required"] |};
              {| err_origin := Query; err_field := "active"; err_type := TBool;
                 err_value := VString "yes";
                 err_message := ["The value of `active` must be a valid bool"] |}]))
  /\ In {| err_origin := Body; err_field := "active"; err_type := TBool;
           err_value := VString "";
           err_message := ["tell us"; "The value of `active` must be a valid bool"] |}
       (res_errors
          (resultOf
             [{| err_origin := Body; err_field := "active"; err_type := TBool;
                 err_value := VString "";
                 err_message :=
                   ["tell us"; "The value of `active` must be a valid bool"] |}])).
Proof.
  destruct (bool_check_by_origin Fixtures.host "active"
              (Fixtures.field TBool None []) eq_refl) as [Q [B [RQ _]]].
  destruct (bool_check_by_origin Fixtures.host "active"
              (Fixtures.field TBool (Some (RequiredString "tell us")) []) eq_refl)
    as [_ [_ [_ RB]]].
  split; [reflexivity|]. split; [|split; [|split; [|split]]].
  - apply (Q Query "TrUe"); [left; reflexivity | left; reflexivity].
  - apply (Q Params "yes"); [right; reflexivity | discriminate ..].
  - apply (B (VString "true")). split; [split; discriminate | discriminate].
  - refine (proj2 (RQ Fixtures.rules
                     (Fixtures.queryRequest [("active", VString "yes")]) Query
                     [("name", Fixtures.field TString (Some (RequiredBool true)) []);
                      ("active", Fixtures.field TBool None [])]
                     Fixtures.start _ _ "yes" (or_introl eq_refl) _ _ eq_refl eq_refl)
                  _ _ _); try discriminate.
    + constructor; [intros [E|[]]; discriminate E|].
      constructor; [intros []|constructor].
    + right. left. reflexivity.
  - refine (proj1 (RB Fixtures.rules
                     (Fixtures.bodyRequest [("active", VString "")])
                     [("active", Fixtures.field TBool (Some (RequiredString "tell us")) [])]
                     Fixtures.start _ _ (VString "") _ _ eq_refl eq_refl) _).
    + constructor; [intros []|constructor].
    + left. reflexivity.
    + split; [split; discriminate | discriminate].
Defined.

(** C10: for a field of declared type bool under origin query or params no
    type error is recorded when the present value is not a string or is
    the empty string; the check fires only for a non-empty string that is
    neither ["true"] nor ["false"] once lowered. *)
Theorem bool_check_ignores_non_strings
    (host : Host) (origin : DataOriginType) (field : string)
    (def : FieldValidationOptions) (value : JsValue) :
  fieldTypeOf def = TBool ->
  origin = Query \/ origin = Params ->
  ((forall s, value <> VString s) \/ value = VString "" ->
   silent (typeValidation host origin field def value))
  /\ (~ silent (typeValidation host origin field def value) ->
      exists s, value = VString s /\ s <> ""
                /\ toLowerCase s <> "true" /\ toLowerCase s <> "false").
Proof.
  intros T O.
  assert (NonString : (forall s, value <> VString s) ->
                      typeFailure host origin field def value = []).
  { intros N. unfold typeFailure, typeMismatch. rewrite T.
    destruct O as [-> | ->]; destruct value; try reflexivity;
      exfalso; exact (N s eq_refl). }
  split.
  - intros [N | ->].
    + apply typeValidation_silent. exact (NonString N).
    + apply typeValidation_silent.
      rewrite (typeFailure_bool_query host origin field def "" T O). reflexivity.
  - intros NS.
    destruct value as [| | | |s| |];
      try (exfalso; apply NS; apply typeValidation_silent; apply NonString;
           discriminate).
    exists s. split; [reflexivity|].
    assert (F : typeFailure host origin field def (VString s) <> []).
    { intros E. apply NS. apply typeValidation_silent. exact E. }
    rewrite (typeFailure_bool_query host origin field def s T O) in F.
    destruct (String.eqb_spec s "") as [E|E]; [exfalso; apply F; reflexivity|].
    destruct (String.eqb_spec (toLowerCase s) "true") as [E1|E1];
      [exfalso; apply F; reflexivity|].
    destruct (String.eqb_spec (toLowerCase s) "false") as [E2|E2];
      [exfalso; apply F; reflexivity|].
    auto.
Qed.

Lemma bool_check_ignores_non_strings_witness :
  fieldTypeOf (Fixtures.field TBool None []) = TBool
  /\ silent (typeValidation Fixtures.host Query "active"
               (Fixtures.field TBool None [])
               (VArray [VString "yes"; VString "no"])).
Proof.
  split; [reflexivity|].
  apply (bool_check_ignores_non_strings Fixtures.host Query "active"
           (Fixtures.field TBool None []) (VArray [VString "yes"; VString "no"])
           eq_refl (or_introl eq_refl)).
  left. discriminate.
Defined.

Lemma requiredFailure_withType field def value t :
  requiredFailure field (withType t def) value = requiredFailure field def value.
Proof. reflexivity. Qed.

(** C9: for the schema [{ name: { type: "string", required: true } }] and
    the empty data object the errors list is exactly one entry for [name]
    with the message list [["The field `name` is required"]].  In general,
    when the field is required and its value is not filled, the required
    block records one error whose message is the custom string if
    [required] was given as a string and the default otherwise; whether it
    records and what the message is do not depend on the declared type. *)
Theorem required_check_message
    (origin : DataOriginType) (field : string) (def : FieldValidationOptions)
    (value : JsValue) :
  (forall host fns request st,
      requestData request origin = [] ->
      validate host fns request origin
        [("name", {| def_type := TypeOnly TString;
                     def_required := Some (RequiredBool true);
                     def_rules := None |})] st
      = (Normal
           {| res_message := Some "The field `name` is required";
              res_errors :=
                [{| err_origin := origin; err_field := "name";
                    err_type := TString; err_value := VUndefined;
                    err_message := ["The field `name` is required"] |}] |},
         {| errors :=
              [{| err_origin := origin; err_field := "name";
                  err_type := TString; err_value := VUndefined;
                  err_message := ["The field `name` is required"] |}];
            calls := calls st |}))
  /\ (isRequired def = true -> valueFilled value = false ->
      records (requiredValidation origin field def value)
        (mkError origin field def value
           [match def_required def with
            | Some (RequiredString custom) => custom
            | _ => "The field `" ++ field ++ "` is required"
            end]))
  /\ (forall t,
        (silent (requiredValidation origin field def value)
         <-> silent (requiredValidation origin field (withType t def) value))
        /\ requiredMessage field (withType t def) = requiredMessage field def).
Proof.
  split; [|split].
  - intros host fns request st Data.
    unfold validate, bind at 1, initResult. unfold bind at 1.
    cbn [forOf fst snd]. unfold bind at 1.
    rewrite validateField_run. unfold afterField, fieldRun.
    rewrite Data. cbn. rewrite app_nil_r. reflexivity.
  - intros R F. apply requiredValidation_records.
    unfold requiredFailure. rewrite R, F. discriminate.
  - intros t. split; [|reflexivity].
    assert (Iff : forall d, silent (requiredValidation origin field d value)
                            <-> requiredFailure field d value = []).
    { intros d. split.
      - intros S. destruct (requiredFailure field d value) as [|m rest] eqn:E;
          [reflexivity|]. exfalso.
        apply (silent_not_records _
                 (mkError origin field d value [requiredMessage field d]) S).
        apply requiredValidation_records. rewrite E. discriminate.
      - apply requiredValidation_silent. }
    rewrite !Iff, requiredFailure_withType. reflexivity.
Qed.

Lemma required_check_message_witness :
  isRequired (Fixtures.field TInt (Some (RequiredString "age is mandatory")) []) = true
  /\ valueFilled (VString "") = false
  /\ records (requiredValidation Query "age"
                (Fixtures.field TInt (Some (RequiredString "age is mandatory")) [])
                (VString ""))
       (mkError Query "age"
          (Fixtures.field TInt (Some (RequiredString "age is mandatory")) [])
          (VString "") ["age is mandatory"])
  /\ validate Fixtures.host Fixtures.rules Fixtures.emptyRequest Query
       [("name", {| def_type := TypeOnly TString;
                    def_required := Some (RequiredBool true);
                    def_rules := None |})] Fixtures.start
     = (Normal
          {| res_message := Some "The field `name` is required";
             res_errors :=
               [{| err_origin := Query; err_field := "name";
                   err_type := TString; err_value := VUndefined;
                   err_message := ["The field `name` is required"] |}] |},
        {| errors :=
             [{| err_origin := Query; err_field := "name";
                 err_type := TString; err_value := VUndefined;
                 err_message := ["The field `name` is required"] |}];
           calls := [] |}).
Proof.
  destruct (required_check_message Query "age"
              (Fixtures.field TInt (Some (RequiredString "age is mandatory")) [])
              (VString "")) as [Scenario [General _]].
  split; [reflexivity|]. split; [reflexivity|]. split.
  - exact (General eq_refl eq_refl).
  - exact (Scenario Fixtures.host Fixtures.rules Fixtures.emptyRequest
             Fixtures.start eq_refl).
Defined.

(** ** Absent and empty values *)







(** C5 fails as stated: a required field holding the empty string fails
    the required check, and fails the type check too when the declared
    type is not string. *)
Lemma required_and_type_error_counterexample :
  let tags := Fixtures.field TArray (Some (RequiredBool true)) [] in
  let data := [("tags", VString "")] in
  validate Fixtures.host Fixtures.rules (Fixtures.bodyRequest data) Body
    [("tags", tags)] Fixtures.start
  = (Normal
       {| res_message :=
            Some "The field `tags` is required; The value of `tags` must be a valid array";
          res_errors :=
            [mkError Body "tags" tags (VString "")
               ["The field `tags` is required";
                "The value of `tags` must be a valid array"]] |},
     {| errors :=
          [mkError Body "tags" tags (VString "")
             ["The field `tags` is required";
              "The value of `tags` must be a valid array"]];
        calls := [] |}).
Proof. reflexivity. Qed.

(** C5, amended: a required-failure message and a type-mismatch message are
    recorded for the same field in the same run only when its value is the
    empty string or an empty array, and never when the value is absent; a
    type failure together with several rule failures for one field is
    possible. *)
Theorem required_and_type_error_only_when_empty :
  (forall host origin field def value,
      records (requiredValidation origin field def value)
        (mkError origin field def value [requiredMessage field def]) ->
      records (typeValidation host origin field def value)
        (mkError origin field def value [typeErrorMessage field def]) ->
      value = VString "" \/ value = VArray [])
  /\ (forall host origin field def value,
        value = VUndefined \/ value = VNull ->
        silent (typeValidation host origin field def value))
  /\ (exists host fns request origin field def result st',
        let value := getProp (requestData request origin) field in
        validate host fns request origin [(field, def)] Fixtures.start
        = (Normal result, st')
        /\ typeFailure host origin field def value = [typeErrorMessage field def]
        /\ List.length (ruleFailures fns field def value (requestData request origin)) = 2
        /\ map err_message (res_errors result)
           = [typeErrorMessage field def
              :: ruleFailures fns field def value (requestData request origin)]).
Proof.
  split; [|split].
  - intros host origin field def value Req Ty.
    assert (F : valueFilled value = false).
    { destruct (requiredFailure field def value) as [|m rest] eqn:E.
      - exfalso. apply (silent_not_records _ _ (requiredValidation_silent origin _ _ _ E) Req).
      - unfold requiredFailure in E.
        destruct (isRequired def); [|discriminate].
        destruct (valueFilled value); [discriminate | reflexivity]. }
    assert (P : isEmpty value = false).
    { destruct (typeFailure host origin field def value) as [|m rest] eqn:E.
      - exfalso. apply (silent_not_records _ _ (typeValidation_silent host origin _ _ _ E) Ty).
      - unfold typeFailure in E.
        destruct (isEmpty value); [discriminate | reflexivity]. }
    destruct value as [| | | |s|items|]; try discriminate.
    + destruct s; [left; reflexivity | discriminate].
    + destruct items; [right; reflexivity | discriminate].
  - intros host origin field def value Absent.
    apply typeValidation_silent. unfold typeFailure.
    destruct Absent as [-> | ->]; reflexivity.
  - exists Fixtures.host, Fixtures.rules,
      (Fixtures.bodyRequest [("tags", VString "x")]), Body, "tags",
      (Fixtures.field TArray None
         [Fixtures.rule 1 None; Fixtures.rule 1 (Some (MessageString "too short"))]).
    eexists. eexists. cbv zeta.
    split; [reflexivity|]. split; [reflexivity|]. split; reflexivity.
Qed.

Lemma required_and_type_error_only_when_empty_witness :
  let def := Fixtures.field TString (Some (RequiredString "tags are needed")) [] in
  records (requiredValidation Query "tags" def (VArray []))
    (mkError Query "tags" def (VArray []) ["tags are needed"])
  /\ records (typeValidation Fixtures.host Query "tags" def (VArray []))
       (mkError Query "tags" def (VArray [])
          ["The value of `tags` must be a valid string"])
  /\ (VArray [] = VString "" \/ VArray [] = VArray []).
Proof.
  cbv zeta.
  assert (R : records
                (requiredValidation Query "tags"
                   (Fixtures.field TString (Some (RequiredString "tags are needed")) [])
                   (VArray []))
                (mkError Query "tags"
                   (Fixtures.field TString (Some (RequiredString "tags are needed")) [])
                   (VArray []) ["tags are needed"]))
    by (intros st; reflexivity).
  assert (T : records
                (typeValidation Fixtures.host Query "tags"
                   (Fixtures.field TString (Some (RequiredString "tags are needed")) [])
                   (VArray []))
                (mkError Query "tags"
                   (Fixtures.field TString (Some (RequiredString "tags are needed")) [])
                   (VArray []) ["The value of `tags` must be a valid string"]))
    by (intros st; reflexivity).
  split; [exact R|]. split; [exact T|].
  destruct required_and_type_error_only_when_empty as [H _].
  exact (H Fixtures.host Query "tags"
           (Fixtures.field TString (Some (RequiredString "tags are needed")) [])
           (VArray []) R T).
Defined.

(** ** Rules *)

Lemma ruleCalls_validator fns value def data rule :
  filter isValidatorCall (ruleCalls fns value def data rule)
  = [ValidatorCall (rule_validator rule) value def data].
Proof.
  unfold ruleCalls.
  destruct (rule_message rule) as [[s|fn]|]; try reflexivity.
  destruct (ruleFails fns value def data rule); reflexivity.
Qed.

Lemma validator_calls_in_order fns value def data rules :
  filter isValidatorCall (flat_map (ruleCalls fns value def data) rules)
  = map (fun rule => ValidatorCall (rule_validator rule) value def data) rules.
Proof.
  induction rules as [|rule rest IH].
  - reflexivity.
  - cbn [flat_map map]. rewrite filter_app, ruleCalls_validator, IH. reflexivity.
Qed.

Lemma rulesRun_stops fns field value def data before rule after e :
  Forall (fun r => ruleThrows fns value def data r = None) before ->
  ruleThrows fns value def data rule = Some e ->
  rulesRun fns field value def data (before ++ rule :: after)
  = (map (ruleMessageText fns field value def data)
       (filter (ruleFails fns value def data) before),
     (flat_map (ruleCalls fns value def data) before
      ++ ruleCalls fns value def data rule)%list,
     Some e).
Proof.
  intros Ok Th. induction before as [|r rest IH].
  - cbn [app rulesRun]. rewrite Th. reflexivity.
  - inversion Ok as [|x xs Hr Hrest]; subst.
    cbn [app rulesRun]. rewrite Hr, (IH Hrest).
    cbn [filter flat_map]. rewrite <- app_assoc.
    destruct (ruleFails fns value def data r); reflexivity.
Qed.



(** ** Exceptions *)

Lemma ruleThrows_origin fns value def data rule e :
  ruleThrows fns value def data rule = Some e ->
  callValidator fns (rule_validator rule) value def data = Throw e
  \/ exists fn, rule_message rule = Some (MessageFunction fn)
                /\ callMessage fns fn value def data = Throw e.
Proof.
  unfold ruleThrows.
  destruct (callValidator fns (rule_validator rule) value def data) as [r|e'].
  - destruct (truthy r); [discriminate|].
    destruct (rule_message rule) as [[s|fn]|]; try discriminate.
    destruct (callMessage fns fn value def data) as [m|e'] eqn:Msg; [discriminate|].
    intros [= ->]. right. exists fn. split; [reflexivity | exact Msg].
  - intros [= ->]. left. reflexivity.
Qed.

Lemma ruleThrows_none fns value def data rule :
  completes (callValidator fns (rule_validator rule) value def data) = true ->
  (forall fn, rule_message rule = Some (MessageFunction fn) ->
              completes (callMessage fns fn value def data) = true) ->
  ruleThrows fns value def data rule = None.
Proof.
  intros V Msg. unfold ruleThrows.
  destruct (callValidator fns (rule_validator rule) value def data) as [r|e];
    [|discriminate].
  destruct (truthy r); [reflexivity|].
  destruct (rule_message rule) as [[s|fn]|]; try reflexivity.
  specialize (Msg fn eq_refl).
  destruct (callMessage fns fn value def data); [reflexivity | discriminate].
Qed.

Lemma coercion_throw_present host value :
  (exists e, toStringJs host value = Throw e) -> isEmpty value = false.
Proof. intros [e H]. destruct value; try reflexivity; discriminate. Qed.

Lemma afterFields_stops host fns origin data before field def after e st :
  Forall (fun entry =>
            snd (fieldRun host fns origin data (fst entry) (snd entry)) = None)
    before ->
  snd (fieldRun host fns origin data field def) = Some e ->
  fst (afterFields host fns origin data (before ++ (field, def) :: after)%list st)
  = Some e.
Proof.
  intros Ok Th. revert st. induction before as [|[f d] rest IH]; intros st.
  - cbn [app afterFields]. rewrite Th. reflexivity.
  - inversion Ok as [|x xs Hf Hrest]; subst. cbn [fst snd] in Hf.
    cbn [app afterFields]. rewrite Hf. apply IH. exact Hrest.
Qed.

(** C8 fails as stated: an exception thrown by a rule's message producer
    reaches the caller as well, although no predicate threw. *)
Lemma message_producer_exception_counterexample :
  let age := Fixtures.field TInt None [Fixtures.rule 1 (Some (MessageFunction 1))] in
  let data := [("age", VString "x")] in
  (forall value def bucket,
      callValidator Fixtures.rules 1 value def bucket = Normal (VBool false))
  /\ validate Fixtures.host Fixtures.rules (Fixtures.bodyRequest data) Body
       [("age", age)] Fixtures.start
     = (Throw (Thrown (VString "producer failed")),
        {| errors := [];
           calls := [ValidatorCall 1 (VString "x") age data;
                     MessageCall 1 (VString "x") age data] |}).
Proof. cbv zeta. split; reflexivity. Qed.

(** C8, amended: [validate] returns normally whenever the predicates and
    message producers of the schema's rules do not throw; an exception
    raised while a value is coerced for a date or number check is caught
    and becomes the type error of that field; an exception that does reach
    the caller was thrown by a rule's predicate or by a rule's message
    producer; and a predicate's exception is passed on to the caller
    without being recorded. *)
Theorem validate_raises_only_from_rules (host : Host) (fns : RuleFunctions) :
  (forall request origin options st,
      (forall field def rule,
          In (field, def) options -> In rule (rulesOf def) ->
          forall value d data,
            completes (callValidator fns (rule_validator rule) value d data) = true
            /\ forall fn, rule_message rule = Some (MessageFunction fn) ->
                          completes (callMessage fns fn value d data) = true) ->
      exists result st',
        validate host fns request origin options st = (Normal result, st'))
  /\ (forall origin field def value e,
        (fieldTypeOf def = TDate /\ dateGetTime host value = Throw e)
        \/ (isNumericType (fieldTypeOf def) = true
            /\ numericParse host (fieldTypeOf def) value = Throw e) ->
        records (typeValidation host origin field def value)
          (mkError origin field def value [typeErrorMessage field def]))
  /\ (forall request origin options st e st',
        validate host fns request origin options st = (Throw e, st') ->
        exists field def rule,
          let data := requestData request origin in
          In (field, def) options /\ In rule (rulesOf def)
          /\ (callValidator fns (rule_validator rule) (getProp data field) def data
              = Throw e
              \/ exists fn,
                   rule_message rule = Some (MessageFunction fn)
                   /\ callMessage fns fn (getProp data field) def data = Throw e))
  /\ (forall origin field def data before rule after e,
        let value := getProp data field in
        rulesApply def value = true ->
        rulesOf def = (before ++ rule :: after)%list ->
        Forall (fun r => ruleThrows fns value def data r = None) before ->
        callValidator fns (rule_validator rule) value def data = Throw e ->
        (forall st,
            rulesValidation fns origin field def value data st
            = (Throw e,
               {| errors :=
                    addMessages origin field def value
                      (map (ruleMessageText fns field value def data)
                         (filter (ruleFails fns value def data) before))
                      (errors st);
                  calls :=
                    (calls st ++ flat_map (ruleCalls fns value def data) before
                     ++ [ValidatorCall (rule_validator rule) value def data])%list |}))
        /\ (forall request earlier later st,
              requestData request origin = data ->
              Forall (fun entry =>
                        snd (fieldRun host fns origin data (fst entry) (snd entry))
                        = None) earlier ->
              exists st',
                validate host fns request origin
                  (earlier ++ (field, def) :: later)%list st
                = (Throw e, st'))).
Proof.
  split; [|split; [|split]].
  - intros request origin options st NoThrow.
    rewrite validate_run.
    destruct (afterFields host fns origin (requestData request origin) options
                {| errors := []; calls := calls st |}) as [exn final] eqn:After.
    destruct exn as [e|]; [|eexists; eexists; reflexivity].
    exfalso.
    assert (F : fst (afterFields host fns origin (requestData request origin) options
                       {| errors := []; calls := calls st |}) = Some e)
      by (rewrite After; reflexivity).
    destruct (afterFields_thrown host fns origin (requestData request origin)
                options _ e F) as [field [def [rule [Hin [Hrule Th]]]]].
    destruct (NoThrow field def rule Hin Hrule
                (getProp (requestData request origin) field) def
                (requestData request origin)) as [V Msg].
    rewrite (ruleThrows_none fns _ def _ rule V Msg) in Th. discriminate.
  - intros origin field def value e Coercion.
    apply typeValidation_records. unfold typeFailure, typeMismatch.
    destruct Coercion as [[T D] | [N P]].
    + rewrite T, D.
      assert (E : isEmpty value = false).
      { destruct value; try discriminate; reflexivity. }
      rewrite E. discriminate.
    + assert (E : isEmpty value = false).
      { apply (coercion_throw_present host). unfold numericParse, parseInt, parseFloat in P.
        destruct (toStringJs host value) as [s|e'] eqn:S.
        - destruct (fieldTypeOf def); discriminate.
        - exists e'. reflexivity. }
      rewrite E. unfold numericParse in P.
      destruct (fieldTypeOf def); try discriminate; rewrite P; discriminate.
  - intros request origin options st e st'.
    rewrite validate_run.
    destruct (afterFields host fns origin (requestData request origin) options
                {| errors := []; calls := calls st |}) as [exn final] eqn:After.
    destruct exn as [e'|]; [|discriminate]. intros [= -> <-].
    assert (F : fst (afterFields host fns origin (requestData request origin) options
                       {| errors := []; calls := calls st |}) = Some e)
      by (rewrite After; reflexivity).
    destruct (afterFields_thrown host fns origin (requestData request origin)
                options _ e F) as [field [def [rule [Hin [Hrule Th]]]]].
    exists field, def, rule. cbv zeta.
    split; [exact Hin|]. split; [exact Hrule|].
    apply ruleThrows_origin. exact Th.
  - intros origin field def data before rule after e value Apply Rules Ok V.
    assert (Th : ruleThrows fns value def data rule = Some e)
      by (unfold ruleThrows; rewrite V; reflexivity).
    split.
    + intros st. rewrite rulesValidation_run, Apply, Rules.
      rewrite (rulesRun_stops fns field value def data before rule after e Ok Th).
      assert (C : ruleCalls fns value def data rule
                  = [ValidatorCall (rule_validator rule) value def data]).
      { unfold ruleCalls, ruleFails. rewrite V.
        destruct (rule_message rule) as [[s|fn]|]; reflexivity. }
      rewrite C. reflexivity.
    + intros request earlier later st Data Earlier.
      assert (F : snd (fieldRun host fns origin data field def) = Some e).
      { unfold fieldRun. fold value. rewrite Apply, Rules.
        rewrite (rulesRun_stops fns field value def data before rule after e Ok Th).
        reflexivity. }
      rewrite validate_run, Data.
      pose proof (afterFields_stops host fns origin data earlier field def later e
                    {| errors := []; calls := calls st |} Earlier F) as Stop.
      destruct (afterFields host fns origin data
                  (earlier ++ (field, def) :: later)%list
                  {| errors := []; calls := calls st |}) as [exn final].
      cbn [fst] in Stop. subst exn. eexists. reflexivity.
Qed.

Lemma validate_raises_only_from_rules_witness :
  (exists result st',
      validate Fixtures.host Fixtures.rules
        (Fixtures.bodyRequest [("born", VObject [("toString", VNull)])]) Body
        [("born", Fixtures.field TDate None [Fixtures.rule 1 (Some (MessageFunction 0))])]
        Fixtures.start
      = (Normal result, st'))
  /\ records (typeValidation Fixtures.host Body "age" (Fixtures.field TInt None [])
                (VArray [VObject [("toString", VNumber (NumFinite 1%Q))]]))
       (mkError Body "age" (Fixtures.field TInt None [])
          (VArray [VObject [("toString", VNumber (NumFinite 1%Q))]])
          ["The value of `age` must be a valid int"])
  /\ rulesValidation Fixtures.rules Body "age"
       (Fixtures.field TInt None [Fixtures.rule 1 None; Fixtures.rule 2 None])
       (VString "x") [("age", VString "x")] Fixtures.start
     = (Throw (Thrown (VString "predicate failed")),
        {| errors :=
             [mkError Body "age"
                (Fixtures.field TInt None [Fixtures.rule 1 None; Fixtures.rule 2 None])
                (VString "x") ["`age` value is not valid"]];
           calls :=
             [ValidatorCall 1 (VString "x")
                (Fixtures.field TInt None [Fixtures.rule 1 None; Fixtures.rule 2 None])
                [("age", VString "x")];
              ValidatorCall 2 (VString "x")
                (Fixtures.field TInt None [Fixtures.rule 1 None; Fixtures.rule 2 None])
                [("age", VString "x")]] |}).
Proof.
  destruct (validate_raises_only_from_rules Fixtures.host Fixtures.rules)
    as [Total [Caught [_ Passed]]].
  split; [|split].
  - apply Total. intros field def rule [[= <- <-]|[]] [<-|[]] value d data.
    split; [reflexivity|]. intros fn [= <-]. reflexivity.
  - apply (Caught Body "age" (Fixtures.field TInt None []) _
             (TypeError "Cannot convert object to primitive value")).
    right. split; reflexivity.
  - destruct (Passed Body "age"
                (Fixtures.field TInt None [Fixtures.rule 1 None; Fixtures.rule 2 None])
                [("age", VString "x")]
                [Fixtures.rule 1 None] (Fixtures.rule 2 None) []
                (Thrown (VString "predicate failed")) eq_refl eq_refl
                ltac:(repeat constructor) eq_refl) as [Run _].
    exact (Run Fixtures.start).
Defined.

(** ** The shape of the report *)

Lemma string_append_assoc (a b c : string) : (a ++ b) ++ c = a ++ (b ++ c).
Proof. induction a as [|ch a IH]; simpl; [reflexivity | rewrite IH; reflexivity]. Qed.

Lemma join_cons sep x xs :
  xs <> [] -> join sep (x :: xs) = x ++ sep ++ join sep xs.
Proof. destruct xs; [contradiction | reflexivity]. Qed.

Lemma join_app sep xs ys :
  xs <> [] -> ys <> [] ->
  join sep (xs ++ ys)%list = join sep xs ++ sep ++ join sep ys.
Proof.
  intros Hx Hy. induction xs as [|x rest IH]; [contradiction|].
  destruct rest as [|y rest].
  - simpl app. rewrite join_cons by exact Hy. reflexivity.
  - change ((x :: y :: rest) ++ ys)%list with (x :: ((y :: rest) ++ ys))%list.
    rewrite join_cons by discriminate.
    rewrite IH by discriminate.
    rewrite (join_cons sep x (y :: rest)) by discriminate.
    rewrite !string_append_assoc. reflexivity.
Qed.

Lemma join_flatten sep (lists : list (list string)) :
  Forall (fun l => l <> []) lists ->
  join sep (map (join sep) lists) = join sep (List.concat lists).
Proof.
  induction lists as [|l rest IH]; intros H; [reflexivity|].
  inversion H as [|x xs Hl Hrest]; subst.
  destruct rest as [|l' rest].
  - simpl. rewrite app_nil_r. reflexivity.
  - inversion Hrest as [|x xs Hl' Hrest']; subst.
    change (map (join sep) (l :: l' :: rest))
      with (join sep l :: map (join sep) (l' :: rest)).
    change (List.concat (l :: l' :: rest))
      with (l ++ List.concat (l' :: rest))%list.
    rewrite join_cons by (simpl; discriminate).
    rewrite join_app;
      [|exact Hl|simpl; destruct l'; [contradiction | discriminate]].
    rewrite (IH Hrest). reflexivity.
Qed.

Section Entries.
Variables (origin : DataOriginType) (data : JsObject) (all : ValidateOptions).

Lemma applyError_EntryOf error entries :
  EntryOf origin data all error ->
  Forall (EntryOf origin data all) entries ->
  Forall (EntryOf origin data all) (applyError error entries).
Proof.
  intros He H. induction entries as [|element rest IH].
  - constructor; [exact He | constructor].
  - inversion H as [|x xs Hx Hrest]; subst. rewrite applyError_cons.
    destruct (String.eqb (err_field error) (err_field element)).
    + constructor; [|exact Hrest].
      destruct Hx as [O [V [M D]]]. unfold EntryOf, pushMessages; cbn.
      split; [exact O|]. split; [exact V|]. split; [|exact D].
      intros E. apply app_eq_nil in E. destruct E as [E _]. exact (M E).
    + constructor; [exact Hx | exact (IH Hrest)].
Qed.

Lemma addMessages_EntryOf field def messages entries :
  In (field, def) all ->
  Forall (EntryOf origin data all) entries ->
  Forall (EntryOf origin data all)
    (addMessages origin field def (getProp data field) messages entries).
Proof.
  intros Hin. revert entries.
  induction messages as [|m rest IH]; intros entries H; simpl.
  - exact H.
  - apply IH. apply applyError_EntryOf; [|exact H].
    unfold EntryOf, mkError; cbn.
    split; [reflexivity|]. split; [reflexivity|]. split; [discriminate|].
    exists def. split; [exact Hin | reflexivity].
Qed.

Lemma afterFields_EntryOf host fns options st :
  incl options all ->
  Forall (EntryOf origin data all) (errors st) ->
  Forall (EntryOf origin data all)
    (errors (snd (afterFields host fns origin data options st))).
Proof.
  revert st. induction options as [|[field def] rest IH]; intros st Incl H;
    cbn [afterFields].
  - exact H.
  - assert (H' : Forall (EntryOf origin data all)
                   (errors (afterField host fns origin data field def st))).
    { rewrite afterField_errors. apply addMessages_EntryOf; [|exact H].
      apply Incl. left. reflexivity. }
    destruct (snd (fieldRun host fns origin data field def)).
    + exact H'.
    + apply IH; [|exact H']. intros x Hx. apply Incl. right. exact Hx.
Qed.

End Entries.

(** X1: the summary message of a returned result is every message of the
    report, entry after entry and in the order each entry holds them,
    joined by ["; "]. *)
Theorem validate_summary_message
    (host : Host) (fns : RuleFunctions) (request : Request)
    (origin : DataOriginType) (options : ValidateOptions)
    (st st' : State) (result : ValidationResult) :
  validate host fns request origin options st = (Normal result, st') ->
  res_message result = Some (join "; " (allMessages (res_errors result))).
Proof.
  rewrite validate_run.
  destruct (afterFields host fns origin (requestData request origin) options
              {| errors := []; calls := calls st |}) as [exn final] eqn:After.
  destruct exn as [e|]; [discriminate|]. intros [= <- <-].
  cbn [res_message res_errors resultOf]. f_equal.
  pose proof (afterFields_EntryOf origin (requestData request origin) options
                host fns options {| errors := []; calls := calls st |}
                (incl_refl _) (Forall_nil _)) as Inv.
  rewrite After in Inv. cbn [snd] in Inv.
  unfold allMessages. rewrite flat_map_concat_map.
  rewrite <- join_flatten.
  - rewrite map_map. reflexivity.
  - apply Forall_map. revert Inv. apply Forall_impl.
    intros entry [_ [_ [M _]]]. exact M.
Qed.

Lemma validate_summary_message_witness :
  Some "tags are needed; The value of `tags` must be a valid array; `name` value is not valid"
  = Some (join "; "
            (allMessages
               [mkError Body "tags"
                  (Fixtures.field TArray (Some (RequiredString "tags are needed")) [])
                  (VString "")
                  ["tags are needed"; "The value of `tags` must be a valid array"];
                mkError Body "name" (Fixtures.field TString None [Fixtures.rule 3 None])
                  (VString "bob") ["`name` value is not valid"]])).
Proof.
  apply (validate_summary_message Fixtures.host Fixtures.rules
           (Fixtures.bodyRequest [("name", VString "bob"); ("tags", VString "")]) Body
           [("tags", Fixtures.field TArray (Some (RequiredString "tags are needed")) []);
            ("name", Fixtures.field TString None [Fixtures.rule 3 None])]
           Fixtures.start
           {| errors :=
                [mkError Body "tags"
                   (Fixtures.field TArray (Some (RequiredString "tags are needed")) [])
                   (VString "")
                   ["tags are needed"; "The value of `tags` must be a valid array"];
                 mkError Body "name" (Fixtures.field TString None [Fixtures.rule 3 None])
                   (VString "bob") ["`name` value is not valid"]];
              calls := [ValidatorCall 3 (VString "bob")
                          (Fixtures.field TString None [Fixtures.rule 3 None])
                          [("name", VString "bob"); ("tags", VString "")]] |}
           {| res_message :=
                Some "tags are needed; The value of `tags` must be a valid array; `name` value is not valid";
              res_errors :=
                [mkError Body "tags"
                   (Fixtures.field TArray (Some (RequiredString "tags are needed")) [])
                   (VString "")
                   ["tags are needed"; "The value of `tags` must be a valid array"];
                 mkError Body "name" (Fixtures.field TString None [Fixtures.rule 3 None])
                   (VString "bob") ["`name` value is not valid"]] |}).
  reflexivity.
Defined.

Lemma entryFields_in_keys origin data options entries :
  Forall (EntryOf origin data options) entries ->
  incl (entryFields entries) (map fst options).
Proof.
  intros H name Hin. unfold entryFields in Hin. apply in_map_iff in Hin.
  destruct Hin as [entry [<- Hentry]].
  rewrite Forall_forall in H. destruct (H entry Hentry) as [_ [_ [_ [def [Hdef _]]]]].
  apply in_map_iff. exists (err_field entry, def). split; [reflexivity | exact Hdef].
Qed.

(** X2: every entry of a returned report carries the origin of the run, the
    name of a field declared in the schema together with the type declared
    for it, the value the data holds at that field, and at least one
    message; the report never has more entries than the schema has
    fields.  This holds for every schema, repeated keys included. *)
Theorem validate_entries_well_formed
    (host : Host) (fns : RuleFunctions) (request : Request)
    (origin : DataOriginType) (options : ValidateOptions)
    (st st' : State) (result : ValidationResult) :
  validate host fns request origin options st = (Normal result, st') ->
  Forall (EntryOf origin (requestData request origin) options) (res_errors result)
  /\ List.length (res_errors result) <= List.length options.
Proof.
  rewrite validate_run.
  destruct (afterFields host fns origin (requestData request origin) options
              {| errors := []; calls := calls st |}) as [exn final] eqn:After.
  destruct exn as [e|]; [discriminate|]. intros [= <- <-].
  cbn [res_errors resultOf].
  pose proof (afterFields_EntryOf origin (requestData request origin) options
                host fns options {| errors := []; calls := calls st |}
                (incl_refl _) (Forall_nil _)) as Inv.
  pose proof (afterFields_NoDup host fns origin (requestData request origin) options
                {| errors := []; calls := calls st |} (NoDup_nil _)) as ND.
  rewrite After in Inv, ND. cbn [snd] in Inv, ND.
  split; [exact Inv|].
  rewrite <- (length_map err_field (errors final)), <- (length_map fst options).
  apply NoDup_incl_length; [exact ND|].
  apply (entryFields_in_keys origin (requestData request origin)). exact Inv.
Qed.

Lemma validate_entries_well_formed_witness :
  Forall (EntryOf Query [("id", VString "x")]
            [("id", Fixtures.field TArray None []);
             ("id", Fixtures.field TObject None [])])
    [mkError Query "id" (Fixtures.field TArray None []) (VString "x")
       ["The value of `id` must be a valid array";
        "The value of `id` must be a valid object"]]
  /\ 1 <= 2.
Proof.
  apply (validate_entries_well_formed Fixtures.host Fixtures.rules
           (Fixtures.queryRequest [("id", VString "x")]) Query
           [("id", Fixtures.field TArray None []);
            ("id", Fixtures.field TObject None [])]
           Fixtures.start
           {| errors :=
                [mkError Query "id" (Fixtures.field TArray None []) (VString "x")
                   ["The value of `id` must be a valid array";
                    "The value of `id` must be a valid object"]];
              calls := [] |}
           (resultOf
              [mkError Query "id" (Fixtures.field TArray None []) (VString "x")
                 ["The value of `id` must be a valid array";
                  "The value of `id` must be a valid object"]])).
  reflexivity.
Defined.

(** ** Merging and composing *)

Lemma applyError_headers error entries :
  map entryHeader (applyError error entries)
  = (map entryHeader entries
     ++ if existsb (String.eqb (err_field error)) (entryFields entries)
        then [] else [entryHeader error])%list.
Proof.
  induction entries as [|element rest IH].
  - reflexivity.
  - rewrite applyError_cons. cbn [entryFields map existsb].
    destruct (String.eqb (err_field error) (err_field element)); cbn [orb].
    + rewrite app_nil_r. reflexivity.
    + cbn [map]. rewrite IH. reflexivity.
Qed.

(** X3: [addError] never raises and leaves the call log alone.  On a
    report whose entries have distinct fields it appends the error's
    messages to the messages of its field and changes those of no other
    field, and the fields stay distinct.  The entries already there keep
    their place, origin, type and value: an error for a field that has an
    entry only contributes messages, one for a new field becomes the last
    entry. *)
Theorem addError_merges (error : ValidationError) (st : State) :
  NoDup (entryFields (errors st)) ->
  exists st',
    addError error st = (Normal tt, st')
    /\ calls st' = calls st
    /\ NoDup (entryFields (errors st'))
    /\ (forall name,
          messagesFor name (errors st')
          = (messagesFor name (errors st)
             ++ if String.eqb name (err_field error)
                then err_message error else [])%list)
    /\ (In (err_field error) (entryFields (errors st)) ->
        map entryHeader (errors st') = map entryHeader (errors st))
    /\ (~ In (err_field error) (entryFields (errors st)) ->
        errors st' = (errors st ++ [error])%list).
Proof.
  intros ND. rewrite addError_run. eexists. split; [reflexivity|].
  cbn [errors calls]. split; [reflexivity|].
  split; [apply applyError_NoDup; exact ND|].
  split; [intros name; apply messagesFor_applyError; exact ND|].
  split.
  - intros Hin. rewrite applyError_headers.
    apply existsb_eqb_In in Hin. rewrite Hin. apply app_nil_r.
  - intros Hnot. apply applyError_fresh. exact Hnot.
Qed.

Lemma addError_merges_witness :
  exists st',
    addError (mkError Body "age" (Fixtures.field TInt None []) VNull ["second"])
      {| errors := [mkError Query "age" (Fixtures.field TDate None [])
                      (VString "x") ["first"];
                    mkError Query "name" (Fixtures.field TString None [])
                      (VBool true) ["other"]];
         calls := [] |}
    = (Normal tt, st')
    /\ errors st'
       = [mkError Query "age" (Fixtures.field TDate None []) (VString "x")
            ["first"; "second"];
          mkError Query "name" (Fixtures.field TString None []) (VBool true)
            ["other"]].
Proof.
  assert (ND : NoDup (entryFields
                        [mkError Query "age" (Fixtures.field TDate None [])
                           (VString "x") ["first"];
                         mkError Query "name" (Fixtures.field TString None [])
                           (VBool true) ["other"]])).
  { constructor; [intros [E|[]]; discriminate E|].
    constructor; [intros []|constructor]. }
  destruct (addError_merges
              (mkError Body "age" (Fixtures.field TInt None []) VNull ["second"])
              {| errors := [mkError Query "age" (Fixtures.field TDate None [])
                              (VString "x") ["first"];
                            mkError Query "name" (Fixtures.field TString None [])
                              (VBool true) ["other"]];
                 calls := [] |} ND) as [st' [Run _]].
  exists st'. split; [exact Run|].
  injection Run as <-. reflexivity.
Defined.

Lemma applyError_app_fresh error front back :
  ~ In (err_field error) (entryFields front) ->
  applyError error (front ++ back) = (front ++ applyError error back)%list.
Proof.
  intros H. induction front as [|x rest IH].
  - reflexivity.
  - cbn [app]. rewrite applyError_cons.
    destruct (String.eqb_spec (err_field error) (err_field x)) as [E|E].
    + exfalso. apply H. left. symmetry. exact E.
    + f_equal. apply IH. intros G. apply H. right. exact G.
Qed.

Lemma addMessages_app_fresh origin field def value messages front back :
  ~ In field (entryFields front) ->
  addMessages origin field def value messages (front ++ back)
  = (front ++ addMessages origin field def value messages back)%list.
Proof.
  intros H. revert back. induction messages as [|m rest IH]; intros back; simpl.
  - reflexivity.
  - rewrite applyError_app_fresh by exact H. apply IH.
Qed.

Lemma afterFields_app host fns origin data first second st :
  afterFields host fns origin data (first ++ second)%list st
  = match afterFields host fns origin data first st with
    | (Some e, st') => (Some e, st')
    | (None, st') => afterFields host fns origin data second st'
    end.
Proof.
  revert st. induction first as [|[field def] rest IH]; intros st.
  - reflexivity.
  - cbn [app afterFields].
    destruct (snd (fieldRun host fns origin data field def)); [reflexivity|].
    apply IH.
Qed.

Lemma afterFields_prefixed host fns origin data options front st :
  (forall name, In name (entryFields front) -> ~ In name (map fst options)) ->
  afterFields host fns origin data options
    {| errors := (front ++ errors st)%list; calls := calls st |}
  = (fst (afterFields host fns origin data options st),
     {| errors :=
          (front ++ errors (snd (afterFields host fns origin data options st)))%list;
        calls := calls (snd (afterFields host fns origin data options st)) |}).
Proof.
  revert st. induction options as [|[field def] rest IH]; intros st Fresh.
  - reflexivity.
  - assert (Hf : ~ In field (entryFields front)).
    { intros Hin. apply (Fresh field Hin). left. reflexivity. }
    assert (Step : afterField host fns origin data field def
                     {| errors := (front ++ errors st)%list; calls := calls st |}
                   = {| errors :=
                          (front ++ errors (afterField host fns origin data field def st))%list;
                        calls := calls (afterField host fns origin data field def st) |}).
    { unfold afterField.
      destruct (fieldRun host fns origin data field def) as [[messages made] exn].
      cbn [errors calls]. rewrite addMessages_app_fresh by exact Hf. reflexivity. }
    cbn [afterFields]. rewrite Step.
    destruct (snd (fieldRun host fns origin data field def)).
    + reflexivity.
    + apply IH. intros name Hin Hrest. apply (Fresh name Hin). right. exact Hrest.
Qed.

(** X4: fields are validated independently.  When two schemas share no
    key and the run over the first returns, the run over both in a row
    returns the entries of the first followed by the entries the second
    gives on its own, and makes the calls of the one after those of the
    other. *)
Theorem validate_concatenates
    (host : Host) (fns : RuleFunctions) (request : Request)
    (origin : DataOriginType) (first second : ValidateOptions)
    (st st1 st2 : State) (r1 r2 : ValidationResult) :
  (forall name, In name (map fst first) -> ~ In name (map fst second)) ->
  validate host fns request origin first st = (Normal r1, st1) ->
  validate host fns request origin second st1 = (Normal r2, st2) ->
  validate host fns request origin (first ++ second)%list st
  = (Normal (resultOf (res_errors r1 ++ res_errors r2)%list),
     {| errors := (res_errors r1 ++ res_errors r2)%list; calls := calls st2 |}).
Proof.
  intros Disjoint. rewrite !validate_run.
  set (data := requestData request origin).
  destruct (afterFields host fns origin data first
              {| errors := []; calls := calls st |}) as [exn1 f1] eqn:A1.
  destruct exn1 as [e|]; [discriminate|]. intros [= <- <-].
  destruct (afterFields host fns origin data second
              {| errors := []; calls := calls f1 |}) as [exn2 f2] eqn:A2.
  destruct exn2 as [e|]; [discriminate|]. intros [= <- <-].
  rewrite afterFields_app, A1.
  assert (Inv : Forall (EntryOf origin data first) (errors f1)).
  { pose proof (afterFields_EntryOf origin data first host fns first
                  {| errors := []; calls := calls st |}
                  (incl_refl _) (Forall_nil _)) as I.
    rewrite A1 in I. exact I. }
  pose proof (afterFields_prefixed host fns origin data second (errors f1)
                {| errors := []; calls := calls f1 |}) as P.
  cbn [errors calls] in P. rewrite app_nil_r, A2 in P. cbn [fst snd] in P.
  replace f1 with {| errors := errors f1; calls := calls f1 |} at 1
    by (destruct f1; reflexivity).
  rewrite P.
  - cbn [resultOf res_errors]. reflexivity.
  - intros name Hin. apply Disjoint.
    apply (entryFields_in_keys origin data first (errors f1) Inv). exact Hin.
Qed.

Lemma validate_concatenates_witness :
  validate Fixtures.host Fixtures.rules
    (Fixtures.bodyRequest [("name", VString "bob")]) Body
    ([("name", Fixtures.field TString None [Fixtures.rule 3 None])]
     ++ [("tags", Fixtures.field TArray (Some (RequiredBool true)) [])])%list
    Fixtures.start
  = (Normal
       (resultOf
          ([mkError Body "name" (Fixtures.field TString None [Fixtures.rule 3 None])
              (VString "bob") ["`name` value is not valid"]]
           ++ [mkError Body "tags" (Fixtures.field TArray (Some (RequiredBool true)) [])
                 VUndefined ["The field `tags` is required"]])%list),
     {| errors :=
          ([mkError Body "name" (Fixtures.field TString None [Fixtures.rule 3 None])
              (VString "bob") ["`name` value is not valid"]]
           ++ [mkError Body "tags" (Fixtures.field TArray (Some (RequiredBool true)) [])
                 VUndefined ["The field `tags` is required"]])%list;
        calls := [ValidatorCall 3 (VString "bob")
                    (Fixtures.field TString None [Fixtures.rule 3 None])
                    [("name", VString "bob")]] |}).
Proof.
  apply (validate_concatenates Fixtures.host Fixtures.rules
           (Fixtures.bodyRequest [("name", VString "bob")]) Body
           [("name", Fixtures.field TString None [Fixtures.rule 3 None])]
           [("tags", Fixtures.field TArray (Some (RequiredBool true)) [])]
           Fixtures.start
           {| errors :=
                [mkError Body "name" (Fixtures.field TString None [Fixtures.rule 3 None])
                   (VString "bob") ["`name` value is not valid"]];
              calls := [ValidatorCall 3 (VString "bob")
                          (Fixtures.field TString None [Fixtures.rule 3 None])
                          [("name", VString "bob")]] |}
           {| errors :=
                [mkError Body "tags" (Fixtures.field TArray (Some (RequiredBool true)) [])
                   VUndefined ["The field `tags` is required"]];
              calls := [ValidatorCall 3 (VString "bob")
                          (Fixtures.field TString None [Fixtures.rule 3 None])
                          [("name", VString "bob")]] |}
           (resultOf
              [mkError Body "name" (Fixtures.field TString None [Fixtures.rule 3 None])
                 (VString "bob") ["`name` value is not valid"]])
           (resultOf
              [mkError Body "tags" (Fixtures.field TArray (Some (RequiredBool true)) [])
                 VUndefined ["The field `tags` is required"]])).
  - intros name [<-|[]] [E|[]]. discriminate E.
  - reflexivity.
  - reflexivity.
Defined.

(** ** Edge cases of the three checks *)

Lemma typeValidation_silent_iff host origin field def value :
  silent (typeValidation host origin field def value)
  <-> typeFailure host origin field def value = [].
Proof.
  split; [|apply typeValidation_silent].
  intros S. destruct (typeFailure host origin field def value) as [|m rest] eqn:E;
    [reflexivity|].
  exfalso.
  apply (silent_not_records _
           (mkError origin field def value [typeErrorMessage field def]) S).
  apply typeValidation_records. rewrite E. discriminate.
Qed.

Lemma typeValidation_silent_or_records host origin field def value :
  silent (typeValidation host origin field def value)
  \/ records (typeValidation host origin field def value)
       (mkError origin field def value [typeErrorMessage field def]).
Proof.
  destruct (typeFailure host origin field def value) as [|m rest] eqn:E.
  - left. apply typeValidation_silent. exact E.
  - right. apply typeValidation_records. rewrite E. discriminate.
Qed.

Lemma requiredValidation_silent_iff origin field def value :
  silent (requiredValidation origin field def value)
  <-> requiredFailure field def value = [].
Proof.
  split; [|apply requiredValidation_silent].
  intros S. destruct (requiredFailure field def value) as [|m rest] eqn:E;
    [reflexivity|].
  exfalso.
  apply (silent_not_records _
           (mkError origin field def value [requiredMessage field def]) S).
  apply requiredValidation_records. rewrite E. discriminate.
Qed.

(** X5: a required field whose value is absent still has its rules run.
    When none of them raises, the field gets the required message followed
    by the message of every rule whose predicate rejects the absent value,
    no type message, and every rule has been called with that value. *)
Theorem required_absent_field_runs_rules
    (host : Host) (fns : RuleFunctions) (origin : DataOriginType)
    (data : JsObject) (field : string) (def : FieldValidationOptions) (st : State) :
  let value := getProp data field in
  isRequired def = true ->
  value = VUndefined \/ value = VNull ->
  Forall (fun rule => ruleThrows fns value def data rule = None) (rulesOf def) ->
  validateField host fns origin data field def st
  = (Normal tt,
     {| errors :=
          addMessages origin field def value
            (requiredMessage field def
             :: map (ruleMessageText fns field value def data)
                  (filter (ruleFails fns value def data) (rulesOf def)))
            (errors st);
        calls := (calls st ++ flat_map (ruleCalls fns value def data) (rulesOf def))%list |})
  /\ filter isValidatorCall (flat_map (ruleCalls fns value def data) (rulesOf def))
     = map (fun rule => ValidatorCall (rule_validator rule) value def data)
         (rulesOf def).
Proof.
  intros value Req Absent Ok. split; [|apply validator_calls_in_order].
  assert (E : isEmpty value = true) by (destruct Absent as [-> | ->]; reflexivity).
  assert (F : valueFilled value = false) by (destruct Absent as [-> | ->]; reflexivity).
  rewrite validateField_run. unfold afterField, fieldRun. fold value.
  unfold rulesApply, requiredFailure, typeFailure. rewrite Req, E, F.
  cbn [orb andb negb].
  assert (R : snd (rulesRun fns field value def data (rulesOf def)) = None)
    by (apply rulesRun_exn; exact Ok).
  rewrite (rulesRun_ok fns field value def data (rulesOf def) R).
  reflexivity.
Qed.

Lemma required_absent_field_runs_rules_witness :
  let def := Fixtures.field TString (Some (RequiredBool true))
               [Fixtures.rule 3 (Some (MessageString "must start with a"))] in
  validateField Fixtures.host Fixtures.rules Body [] "name" def Fixtures.start
  = (Normal tt,
     {| errors :=
          [mkError Body "name" def VUndefined
             ["The field `name` is required"; "must start with a"]];
        calls := [ValidatorCall 3 VUndefined def []] |}).
Proof.
  cbv zeta.
  destruct (required_absent_field_runs_rules Fixtures.host Fixtures.rules Body []
              "name"
              (Fixtures.field TString (Some (RequiredBool true))
                 [Fixtures.rule 3 (Some (MessageString "must start with a"))])
              Fixtures.start eq_refl (or_introl eq_refl)
              ltac:(repeat constructor)) as [Run _].
  exact Run.
Defined.

(** X6: what counts as filled for a required field.  The required check
    passes on every boolean, number and object, [false], [0], [NaN] and
    the empty object included, and on every non-empty string and array;
    it records the required error exactly for [undefined], [null], the
    empty string and the empty array.  In the report of a run over a
    schema with distinct keys the field's entry then starts with the
    required message, the custom one or ["The field `<field>` is
    required"]; for any other value the field's entry, if any, holds type
    and rule messages only. *)
Theorem required_check_by_value
    (origin : DataOriginType) (field : string) (def : FieldValidationOptions) :
  isRequired def = true ->
  (forall b, silent (requiredValidation origin field def (VBool b)))
  /\ (forall n, silent (requiredValidation origin field def (VNumber n)))
  /\ (forall props, silent (requiredValidation origin field def (VObject props)))
  /\ (forall value,
        silent (requiredValidation origin field def value)
        <-> value <> VUndefined /\ value <> VNull
            /\ value <> VString "" /\ value <> VArray [])
  /\ (forall value,
        value = VUndefined \/ value = VNull
        \/ value = VString "" \/ value = VArray [] ->
        records (requiredValidation origin field def value)
          (mkError origin field def value [requiredMessage field def]))
  /\ (forall host fns request options st result st' value,
        NoDup (map fst options) -> In (field, def) options ->
        getProp (requestData request origin) field = value ->
        validate host fns request origin options st = (Normal result, st') ->
        (value = VUndefined \/ value = VNull
         \/ value = VString "" \/ value = VArray [] ->
         In {| err_origin := origin; err_field := field;
               err_type := fieldTypeOf def; err_value := value;
               err_message :=
                 match def_required def with
                 | Some (RequiredString custom) => custom
                 | _ => ("The field `" ++ field ++ "` is required")%string
                 end
                 :: (typeFailure host origin field def value
                     ++ ruleFailures fns field def value
                          (requestData request origin))%list |}
           (res_errors result))
        /\ (value <> VUndefined /\ value <> VNull
            /\ value <> VString "" /\ value <> VArray [] ->
            forall entry,
              In entry (res_errors result) -> err_field entry = field ->
              err_message entry
              = (typeFailure host origin field def value
                 ++ ruleFailures fns field def value
                      (requestData request origin))%list)).
Proof.
  intros Req.
  assert (Sil : forall value, valueFilled value = true ->
                              silent (requiredValidation origin field def value)).
  { intros value F. apply requiredValidation_silent. unfold requiredFailure.
    rewrite F, andb_false_r. reflexivity. }
  split; [intros b; apply Sil; reflexivity|].
  split; [intros n; apply Sil; reflexivity|].
  split; [intros props; apply Sil; reflexivity|].
  split.
  - intros value. rewrite requiredValidation_silent_iff.
    unfold requiredFailure. rewrite Req. cbn [andb].
    destruct value as [| |b|n|s|items|props]; cbn [valueFilled negb].
    + split; [discriminate | intros [H _]; congruence].
    + split; [discriminate | intros [_ [H _]]; congruence].
    + split; [intros _; repeat split; discriminate | reflexivity].
    + split; [intros _; repeat split; discriminate | reflexivity].
    + destruct s as [|c s]; cbn.
      * split; [discriminate | intros [_ [_ [H _]]]; congruence].
      * split; [intros _; repeat split; discriminate | reflexivity].
    + destruct items as [|x items]; cbn.
      * split; [discriminate | intros [_ [_ [_ H]]]; congruence].
      * split; [intros _; repeat split; discriminate | reflexivity].
    + split; [intros _; repeat split; discriminate | reflexivity].
  - split.
    + intros value H. apply requiredValidation_records. unfold requiredFailure.
      rewrite Req. destruct H as [-> | [-> | [-> | ->]]]; discriminate.
    + intros host fns request options st result st' value Keys Hin Value Run.
      destruct (validate_field_report host fns request origin options st result st'
                  field def Keys Hin Run) as [Has Only].
      rewrite Value in Has, Only. split.
      * intros H.
        assert (F : requiredFailure field def value = [requiredMessage field def]).
        { unfold requiredFailure. rewrite Req.
          destruct H as [-> | [-> | [-> | ->]]]; reflexivity. }
        rewrite F in Has. apply Has. discriminate.
      * intros [N1 [N2 [N3 N4]]] entry Hentry Field.
        destruct (Only entry Hentry Field) as [-> _].
        assert (F : requiredFailure field def value = []).
        { unfold requiredFailure.
          assert (V : valueFilled value = true).
          { destruct value as [| |b|n|s|items|props]; try reflexivity;
              try congruence.
            - destruct s; [congruence | reflexivity].
            - destruct items; [congruence | reflexivity]. }
          rewrite V, andb_false_r. reflexivity. }
        rewrite F. reflexivity.
Qed.

Lemma required_check_by_value_witness :
  isRequired (Fixtures.field TBool (Some (RequiredString "say yes or no")) []) = true
  /\ silent (requiredValidation Body "agree"
               (Fixtures.field TBool (Some (RequiredString "say yes or no")) [])
               (VBool false))
  /\ records (requiredValidation Body "agree"
                (Fixtures.field TBool (Some (RequiredString "say yes or no")) [])
                (VArray []))
       (mkError Body "agree"
          (Fixtures.field TBool (Some (RequiredString "say yes or no")) [])
          (VArray []) ["say yes or no"])
  /\ In {| err_origin := Body; err_field := "agree"; err_type := TBool;
           err_value := VArray [];
           err_message :=
             ["say yes or no"; "The value of `agree` must be a valid bool"] |}
       (res_errors
          (resultOf
             [{| err_origin := Body; err_field := "agree"; err_type := TBool;
                 err_value := VArray [];
                 err_message :=
                   ["say yes or no";
                    "The value of `agree` must be a valid bool"] |}])).
Proof.
  destruct (required_check_by_value Body "agree"
              (Fixtures.field TBool (Some (RequiredString "say yes or no")) [])
              eq_refl) as [B [_ [_ [_ [R Rep]]]]].
  split; [reflexivity|]. split; [exact (B false)|]. split.
  - apply (R (VArray [])). right. right. right. reflexivity.
  - refine (proj1 (Rep Fixtures.host Fixtures.rules
                     (Fixtures.bodyRequest [("agree", VArray [])])
                     [("agree", Fixtures.field TBool
                                  (Some (RequiredString "say yes or no")) [])]
                     Fixtures.start _ _ (VArray []) _ _ eq_refl eq_refl) _).
    + constructor; [intros []|constructor].
    + left. reflexivity.
    + right. right. right. reflexivity.
Defined.

(** X7: the checks of the types string, array and object on a value that
    is neither [null] nor [undefined].  The string check passes exactly on
    strings and the array check exactly on arrays; the object check passes
    on every object and on every array as well, and fails on booleans,
    numbers and strings.  A check that does not pass records the
    type-mismatch error of the field: in the report of a run over a schema
    with distinct keys the field's entry then holds, after the required
    message if any and before the rule messages, the custom type message
    or ["The value of `<field>` must be a valid <type>"]; when the check
    passes the field's entry, if any, holds only required and rule
    messages. *)
Theorem kind_checks
    (host : Host) (origin : DataOriginType) (field : string)
    (def : FieldValidationOptions) (value : JsValue) :
  isEmpty value = false ->
  (fieldTypeOf def = TString ->
   (silent (typeValidation host origin field def value)
    <-> exists s, value = VString s))
  /\ (fieldTypeOf def = TArray ->
      (silent (typeValidation host origin field def value)
       <-> exists items, value = VArray items))
  /\ (fieldTypeOf def = TObject ->
      (silent (typeValidation host origin field def value)
       <-> (exists items, value = VArray items)
           \/ (exists props, value = VObject props)))
  /\ (~ silent (typeValidation host origin field def value) ->
      records (typeValidation host origin field def value)
        (mkError origin field def value [typeErrorMessage field def]))
  /\ (forall fns request options st result st' kind,
        (fieldTypeOf def = TString /\ kind = "string")
        \/ (fieldTypeOf def = TArray /\ kind = "array")
        \/ (fieldTypeOf def = TObject /\ kind = "object") ->
        NoDup (map fst options) -> In (field, def) options ->
        getProp (requestData request origin) field = value ->
        validate host fns request origin options st = (Normal result, st') ->
        (~ silent (typeValidation host origin field def value) ->
         In {| err_origin := origin; err_field := field;
               err_type := fieldTypeOf def; err_value := value;
               err_message :=
                 (requiredFailure field def value
                  ++ match def_type def with
                     | TypeWithMessage _ custom => custom
                     | TypeOnly _ =>
                         ("The value of `" ++ field ++ "` must be a valid "
                            ++ kind)%string
                     end
                     :: ruleFailures fns field def value
                          (requestData request origin))%list |}
           (res_errors result))
        /\ (silent (typeValidation host origin field def value) ->
            forall entry,
              In entry (res_errors result) -> err_field entry = field ->
              err_message entry
              = (requiredFailure field def value
                 ++ ruleFailures fns field def value
                      (requestData request origin))%list)).
Proof.
  intros Present.
  split; [|split; [|split; [|split]]].
  - intros T. rewrite typeValidation_silent_iff.
    unfold typeFailure, typeMismatch. rewrite T, Present. cbn [negb andb].
    destruct value; split; intros H; try discriminate; try reflexivity;
      try (eexists; reflexivity); destruct H; discriminate.
  - intros T. rewrite typeValidation_silent_iff.
    unfold typeFailure, typeMismatch. rewrite T, Present. cbn [negb andb].
    destruct value; split; intros H; try discriminate; try reflexivity;
      try (eexists; reflexivity); destruct H; discriminate.
  - intros T. rewrite typeValidation_silent_iff.
    unfold typeFailure, typeMismatch. rewrite T, Present. cbn [negb andb].
    destruct value; split; intros H; try discriminate; try reflexivity;
      try (left; eexists; reflexivity); try (right; eexists; reflexivity);
      destruct H as [[x H]|[x H]]; discriminate.
  - intros N.
    destruct (typeValidation_silent_or_records host origin field def value)
      as [S|R]; [contradiction | exact R].
  - intros fns request options st result st' kind Kind Keys Hin Value Run.
    destruct (validate_field_report host fns request origin options st result st'
                field def Keys Hin Run) as [Has Only].
    rewrite Value in Has, Only.
    assert (Text : typeErrorMessage field def
                   = match def_type def with
                     | TypeWithMessage _ custom => custom
                     | TypeOnly _ =>
                         "The value of `" ++ field ++ "` must be a valid " ++ kind
                     end).
    { unfold typeErrorMessage.
      destruct (def_type def) as [t|t custom] eqn:D; [|reflexivity].
      destruct Kind as [[-> ->]|[[-> ->]|[-> ->]]]; reflexivity. }
    split.
    + intros N.
      assert (F : typeFailure host origin field def value
                  = [typeErrorMessage field def]).
      { destruct (typeFailure host origin field def value) as [|m rest] eqn:E.
        - exfalso. apply N. apply typeValidation_silent. exact E.
        - unfold typeFailure in E.
          destruct (negb (isEmpty value)
                    && typeMismatch host origin (fieldTypeOf def) value);
            [injection E as <- <-; reflexivity | discriminate E]. }
      rewrite F, Text in Has. apply Has.
      intros E. apply app_eq_nil in E. destruct E as [_ E]. discriminate E.
    + intros S entry Hentry Field.
      destruct (Only entry Hentry Field) as [-> _].
      apply typeValidation_silent_iff in S. rewrite S. reflexivity.
Qed.

Lemma kind_checks_witness :
  isEmpty (VArray [VNumber NumNaN]) = false
  /\ silent (typeValidation Fixtures.host Body "profile"
               (Fixtures.field TObject None []) (VArray [VNumber NumNaN]))
  /\ In {| err_origin := Body; err_field := "profile"; err_type := TString;
           err_value := VArray [VNumber NumNaN];
           err_message := ["The value of `profile` must be a valid string"] |}
       (res_errors
          (resultOf
             [{| err_origin := Body; err_field := "profile"; err_type := TString;
                 err_value := VArray [VNumber NumNaN];
                 err_message :=
                   ["The value of `profile` must be a valid string"] |}])).
Proof.
  split; [reflexivity|].
  destruct (kind_checks Fixtures.host Body "profile" (Fixtures.field TObject None [])
              (VArray [VNumber NumNaN]) eq_refl) as [_ [_ [O _]]].
  destruct (kind_checks Fixtures.host Body "profile" (Fixtures.field TString None [])
              (VArray [VNumber NumNaN]) eq_refl) as [Str [_ [_ [_ Rep]]]].
  split.
  - apply (O eq_refl). left. eexists. reflexivity.
  - refine (proj1 (Rep Fixtures.rules
                     (Fixtures.bodyRequest [("profile", VArray [VNumber NumNaN])])
                     [("profile", Fixtures.field TString None [])]
                     Fixtures.start _ _ "string" (or_introl (conj eq_refl eq_refl))
                     _ _ eq_refl eq_refl) _).
    + constructor; [intros []|constructor].
    + left. reflexivity.
    + intros S. apply (Str eq_refl) in S. destruct S as [s E]. discriminate E.
Defined.

Lemma timeClip_valid n :
  timeClip n <> NumNaN
  <-> exists q, n = NumFinite q
                /\ Qle_bool (Qabs q) (inject_Z 8640000000000000) = true.
Proof.
  destruct n as [|neg|q]; simpl.
  - split; [congruence | intros [q [H _]]; discriminate].
  - split; [congruence | intros [q [H _]]; discriminate].
  - destruct (Qle_bool (Qabs q) (inject_Z 8640000000000000)) eqn:E.
    + split; [intros _; exists q; auto | discriminate].
    + split; [congruence | intros [q' [[= <-] H]]; congruence].
Qed.

Lemma date_typeFailure host origin field def value n :
  fieldTypeOf def = TDate ->
  isEmpty value = false ->
  dateGetTime host value = Normal n ->
  (typeFailure host origin field def value = [] <-> n <> NumNaN).
Proof.
  intros T P D. unfold typeFailure, typeMismatch. rewrite T, P, D.
  cbn [negb andb]. destruct n; split; intros H; try discriminate;
    try reflexivity; congruence.
Qed.

(** X8: the date check.  A boolean always passes; a number passes exactly
    when it is finite and within 8.64e15 milliseconds of the epoch; a
    string passes exactly when the host parses it to a time in that range;
    an object passes only if it has no [toString] property of its own. *)
Theorem date_check_by_value
    (host : Host) (origin : DataOriginType) (field : string)
    (def : FieldValidationOptions) :
  fieldTypeOf def = TDate ->
  (forall b, silent (typeValidation host origin field def (VBool b)))
  /\ (forall n,
        silent (typeValidation host origin field def (VNumber n))
        <-> exists q, n = NumFinite q
                      /\ (Qabs q <= inject_Z 8640000000000000)%Q)
  /\ (forall s,
        silent (typeValidation host origin field def (VString s))
        <-> exists q, dateParse host s = NumFinite q
                      /\ (Qabs q <= inject_Z 8640000000000000)%Q)
  /\ (forall props,
        silent (typeValidation host origin field def (VObject props)) ->
        hasOwn props "toString" = false).
Proof.
  intros T. split; [|split; [|split]].
  - intros b. apply typeValidation_silent.
    apply (date_typeFailure host origin field def (VBool b)
             (NumFinite (if b then 1%Q else 0%Q)) T eq_refl eq_refl).
    discriminate.
  - intros n. rewrite typeValidation_silent_iff.
    rewrite (date_typeFailure host origin field def (VNumber n) (timeClip n)
               T eq_refl eq_refl).
    rewrite timeClip_valid. split; intros [q [E H]]; exists q; split; try exact E;
      apply Qle_bool_iff; exact H.
  - intros s. rewrite typeValidation_silent_iff.
    rewrite (date_typeFailure host origin field def (VString s)
               (timeClip (dateParse host s)) T eq_refl eq_refl).
    rewrite timeClip_valid. split; intros [q [E H]]; exists q; split; try exact E;
      apply Qle_bool_iff; exact H.
  - intros props S. apply typeValidation_silent_iff in S.
    unfold typeFailure, typeMismatch in S. rewrite T in S.
    cbn [isEmpty negb andb dateGetTime toStringJs] in S.
    destruct (hasOwn props "toString"); [discriminate S | reflexivity].
Qed.

Lemma date_check_by_value_witness :
  fieldTypeOf (Fixtures.field TDate None []) = TDate
  /\ silent (typeValidation Fixtures.host Body "born" (Fixtures.field TDate None [])
               (VBool true))
  /\ ~ silent (typeValidation Fixtures.host Body "born" (Fixtures.field TDate None [])
                 (VNumber (NumInfinity false))).
Proof.
  destruct (date_check_by_value Fixtures.host Body "born"
              (Fixtures.field TDate None []) eq_refl) as [B [N _]].
  split; [reflexivity|]. split; [exact (B true)|].
  intros S. apply (N (NumInfinity false)) in S.
  destruct S as [q [E _]]. discriminate E.
Defined.

(** ** The middleware *)

Lemma report_empty_iff host fns origin data options log final :
  afterFields host fns origin data options {| errors := []; calls := log |}
  = (None, final) ->
  (errors final = [] <-> SatisfiesSchema host fns origin data options).
Proof.
  intros Run.
  assert (Ok : fst (afterFields host fns origin data options
                      {| errors := []; calls := log |}) = None)
    by (rewrite Run; reflexivity).
  pose proof (afterFields_empty host fns origin data options
                {| errors := []; calls := log |} Ok) as Empty.
  rewrite Run in Empty. cbn [snd errors] in Empty.
  apply afterFields_completes in Ok.
  rewrite Empty. unfold SatisfiesSchema. rewrite !Forall_forall in *. split.
  - intros [_ H] [field def] Hin.
    apply field_conforms_iff; [exact (Ok _ Hin) | exact (H _ Hin)].
  - intros H. split; [reflexivity|]. intros [field def] Hin.
    apply field_conforms_iff; [exact (Ok _ Hin) | exact (H _ Hin)].
Qed.

(** X9: the handler made by [validateRequest] hands over to the next
    handler exactly when the data of the chosen origin satisfies the
    schema; otherwise it answers with status 422 and the result of
    [validate], which then holds at least one error.  It never answers
    with another status, and an exception out of [validate] leaves it
    without either. *)
Theorem validateRequest_outcome
    (host : Host) (fns : RuleFunctions) (origin : DataOriginType)
    (options : ValidateOptions) (request : Request) (st : State) :
  (forall result st',
      validate host fns request origin options st = (Normal result, st') ->
      (SatisfiesSchema host fns origin (requestData request origin) options ->
       validateRequest host fns origin options request st = (Normal CallNext, st'))
      /\ (~ SatisfiesSchema host fns origin (requestData request origin) options ->
          validateRequest host fns origin options request st
          = (Normal (Respond 422 result), st')
          /\ res_errors result <> []))
  /\ (forall e st',
        validate host fns request origin options st = (Throw e, st') ->
        validateRequest host fns origin options request st = (Throw e, st'))
  /\ (forall status json st',
        validateRequest host fns origin options request st
        = (Normal (Respond status json), st') ->
        status = 422
        /\ validate host fns request origin options st = (Normal json, st')
        /\ ~ SatisfiesSchema host fns origin (requestData request origin) options).
Proof.
  unfold validateRequest, bind. rewrite validate_run.
  destruct (afterFields host fns origin (requestData request origin) options
              {| errors := []; calls := calls st |}) as [exn final] eqn:After.
  destruct exn as [e|].
  - split; [intros result st' H; discriminate H|].
    split; [intros e' st' [= <- <-]; reflexivity|].
    intros status json st' H. discriminate H.
  - pose proof (report_empty_iff host fns origin (requestData request origin)
                  options (calls st) final After) as Iff.
    cbn [res_errors resultOf].
    split; [|split].
    + intros result st' [= <- <-]. cbn [res_errors resultOf]. split.
      * intros Sat. apply Iff in Sat. rewrite Sat. reflexivity.
      * intros NSat.
        destruct (errors final) as [|entry rest] eqn:E.
        -- exfalso. apply NSat. apply Iff. reflexivity.
        -- split; [reflexivity | discriminate].
    + intros e st' H. discriminate H.
    + intros status json st' H.
      destruct (errors final) as [|entry rest] eqn:E; cbn in H.
      * discriminate H.
      * injection H as <- <- <-. split; [reflexivity|]. split; [reflexivity|].
        intros Sat. apply Iff in Sat. discriminate Sat.
Qed.

Lemma validateRequest_outcome_witness :
  validateRequest Fixtures.host Fixtures.rules Query
    [("page", Fixtures.field TInt (Some (RequiredBool true)) [])]
    (Fixtures.queryRequest [("page", VString "2")]) Fixtures.start
  = (Normal CallNext, Fixtures.start).
Proof.
  destruct (validateRequest_outcome Fixtures.host Fixtures.rules Query
              [("page", Fixtures.field TInt (Some (RequiredBool true)) [])]
              (Fixtures.queryRequest [("page", VString "2")]) Fixtures.start)
    as [H _].
  destruct (H (resultOf []) Fixtures.start eq_refl) as [Next _].
  apply Next. constructor; [|constructor].
  split.
  - intros _. split; [split; discriminate | split; discriminate].
  - intros _. split; [exists (NumFinite (inject_Z 2)); reflexivity | constructor].
Defined.

(** ** [startWithRule] *)

Lemma prefix_append pattern s :
  String.prefix pattern s = true <-> exists rest, s = pattern ++ rest.
Proof.
  revert s. induction pattern as [|a pattern IH]; intros s.
  - split; [intros _; exists s; reflexivity | destruct s; reflexivity].
  - destruct s as [|b s]; simpl.
    + split; [discriminate | intros [rest H]; discriminate].
    + destruct (ascii_dec a b) as [<-|N].
      * rewrite IH. split; intros [rest H]; exists rest.
        -- rewrite H. reflexivity.
        -- injection H as H. exact H.
      * split; [discriminate | intros [rest H]; injection H as H1 H2; congruence].
Qed.


Section StartWithFacts.
Variable errorText : JsValue -> string.

Lemma startWithItems_good pattern items :
  Forall (goodItem pattern) items ->
  startWithItems errorText pattern items = Normal (VBool true).
Proof.
  induction items as [|item rest IH]; intros H; [reflexivity|].
  inversion H as [|x xs [tail ->] Hrest]; subst. cbn [startWithItems callStartsWith].
  rewrite (proj2 (prefix_append pattern (pattern ++ tail))) by (exists tail; reflexivity).
  cbn [negb]. exact (IH Hrest).
Qed.

Lemma startWithItems_skip pattern good rest :
  Forall (goodItem pattern) good ->
  startWithItems errorText pattern (good ++ rest)
  = startWithItems errorText pattern rest.
Proof.
  induction good as [|item good IH]; intros H; [reflexivity|].
  inversion H as [|x xs [tail ->] Hgood]; subst.
  cbn [app startWithItems callStartsWith].
  rewrite (proj2 (prefix_append pattern (pattern ++ tail))) by (exists tail; reflexivity).
  cbn [negb]. exact (IH Hgood).
Qed.

Lemma callStartsWith_notString pattern value :
  notString value ->
  callStartsWith errorText pattern value = Throw (TypeError (errorText value)).
Proof.
  intros N. destruct value; try reflexivity. exfalso. exact (N s eq_refl).
Qed.

Lemma startWithValidator_total pattern value :
  exists r, startWithValidator errorText pattern value = Normal r.
Proof.
  unfold startWithValidator.
  destruct (if isArray value
            then match value with
                 | VArray items => startWithItems errorText pattern items
                 | _ => Normal (VBool true)
                 end
            else match callStartsWith errorText pattern value with
                 | Normal b => Normal (VBool b)
                 | Throw e => Throw e
                 end) as [r|e]; eexists; reflexivity.
Qed.

Lemma startWithValidator_notString pattern value :
  notString value -> isArray value = false ->
  startWithValidator errorText pattern value = Normal (VString (errorText value)).
Proof.
  intros N A. unfold startWithValidator. rewrite A.
  rewrite (callStartsWith_notString pattern value N). reflexivity.
Qed.

(** X10: the predicate of [startWithRule] never raises.  On a string it
    yields [true] exactly when the string starts with the pattern, and
    [false] otherwise; on any value that is neither a string nor an array
    the call of [startsWith] fails and the predicate yields the text of
    that failure instead of a boolean. *)
Theorem startWith_validator_results (pattern : string) :
  (forall value, exists r, startWithValidator errorText pattern value = Normal r)
  /\ (forall s,
        exists b,
          startWithValidator errorText pattern (VString s) = Normal (VBool b)
          /\ (b = true <-> exists rest, s = pattern ++ rest))
  /\ (forall value,
        notString value -> isArray value = false ->
        startWithValidator errorText pattern value
        = Normal (VString (errorText value))).
Proof.
  split; [|split].
  - intros value. apply startWithValidator_total.
  - intros s. exists (String.prefix pattern s). split; [reflexivity|].
    apply prefix_append.
  - intros value N A. apply startWithValidator_notString; assumption.
Qed.

Lemma startWithItems_stops pattern good item rest :
  Forall (goodItem pattern) good ->
  startWithItems errorText pattern (good ++ item :: rest)
  = match item with
    | VString s =>
        if String.prefix pattern s
        then startWithItems errorText pattern rest
        else Normal (VBool false)
    | _ => Throw (TypeError (errorText item))
    end.
Proof.
  intros G. rewrite (startWithItems_skip pattern good (item :: rest) G).
  cbn [startWithItems]. destruct item; try reflexivity.
  cbn [callStartsWith]. destruct (String.prefix pattern s); reflexivity.
Qed.

(** X11: the predicate of [startWithRule] on an array goes through the
    items in order and the first item that is not a string starting with
    the pattern decides: a string that does not start with it yields
    [false]; anything that is no string yields the text of the failed
    call, whatever the items after it are.  With no such item, the empty
    array included, it yields [true]. *)
Theorem startWith_validator_on_arrays (pattern : string) :
  (forall items,
      Forall (goodItem pattern) items ->
      startWithValidator errorText pattern (VArray items) = Normal (VBool true))
  /\ (forall good s rest,
        Forall (goodItem pattern) good ->
        ~ (exists tail, s = pattern ++ tail) ->
        startWithValidator errorText pattern (VArray (good ++ VString s :: rest))
        = Normal (VBool false))
  /\ (forall good item rest,
        Forall (goodItem pattern) good ->
        notString item ->
        startWithValidator errorText pattern (VArray (good ++ item :: rest))
        = Normal (VString (errorText item))).
Proof.
  split; [|split].
  - intros items G. unfold startWithValidator. cbn [isArray].
    rewrite (startWithItems_good pattern items G). reflexivity.
  - intros good s rest G N. unfold startWithValidator. cbn [isArray].
    rewrite (startWithItems_stops pattern good (VString s) rest G).
    destruct (String.prefix pattern s) eqn:P; [|reflexivity].
    exfalso. apply N. apply prefix_append. exact P.
  - intros good item rest G N. unfold startWithValidator. cbn [isArray].
    rewrite (startWithItems_stops pattern good item rest G).
    destruct item; try reflexivity. exfalso. exact (N s eq_refl).
Qed.

(** The rule as the engine sees it, once a table holds its closures *)

Variable fns : RuleFunctions.
Variable ref : FnRef.
Variable pattern : string.
Hypothesis Held : holdsStartWith errorText fns ref pattern.

Lemma startWith_never_throws value def data :
  ruleThrows fns value def data (startWithRule ref) = None.
Proof.
  destruct Held as [V Msg]. unfold ruleThrows. cbn [startWithRule rule_validator rule_message].
  rewrite V, Msg.
  destruct (startWithValidator_total pattern value) as [r ->].
  destruct (truthy r); [reflexivity|].
  unfold startWithMessage. destruct (isArray value); reflexivity.
Qed.

(** X12: in the engine a value that is neither a string nor an array
    passes [startWithRule]: provided the engine's failure text for it is
    not empty, the predicate's result is truthy, so that no error is
    recorded and the message producer is not called. *)
Theorem startWith_passes_non_strings
    (origin : DataOriginType) (field : string) (def : FieldValidationOptions)
    (value : JsValue) (data : JsObject) (st : State) :
  rulesOf def = [startWithRule ref] ->
  rulesApply def value = true ->
  notString value -> isArray value = false ->
  errorText value <> "" ->
  rulesValidation fns origin field def value data st
  = (Normal tt,
     {| errors := errors st;
        calls := (calls st ++ [ValidatorCall ref value def data])%list |}).
Proof.
  intros Rules Apply N A Text.
  assert (V : callValidator fns ref value def data
              = Normal (VString (errorText value))).
  { destruct Held as [V _]. rewrite V.
    apply startWithValidator_notString; assumption. }
  assert (Tr : truthy (VString (errorText value)) = true).
  { cbn [truthy]. apply negb_true_iff. apply String.eqb_neq. exact Text. }
  rewrite rulesValidation_run, Apply, Rules.
  cbn [rulesRun]. unfold ruleCalls, ruleThrows, ruleFails.
  cbn [startWithRule rule_validator rule_message].
  rewrite V, Tr. reflexivity.
Qed.

(** X13: when [startWithRule] rejects a value the recorded message does not
    name the field: the engine hands the field's schema entry to the
    message producer, which interpolates it as [[object Object]].  For a
    string the message is
    ["The field `[object Object]` value must start with `<pattern>`"], for
    an array ["Each item of `[object Object]` must start with `<pattern>`"]. *)
Theorem startWith_message_names_no_field
    (origin : DataOriginType) (field : string) (def : FieldValidationOptions)
    (value : JsValue) (data : JsObject) (st : State) :
  rulesOf def = [startWithRule ref] ->
  rulesApply def value = true ->
  startWithValidator errorText pattern value = Normal (VBool false) ->
  rulesValidation fns origin field def value data st
  = (Normal tt,
     {| errors :=
          addMessages origin field def value
            [(if isArray value then "Each item of `" else "The field `")
             ++ "[object Object]"
             ++ (if isArray value then "` must start with `"
                 else "` value must start with `")
             ++ pattern ++ "`"]
            (errors st);
        calls := (calls st ++ [ValidatorCall ref value def data;
                               MessageCall ref value def data])%list |}).
Proof.
  intros Rules Apply False.
  destruct Held as [V Msg].
  rewrite rulesValidation_run, Apply, Rules.
  cbn [rulesRun]. unfold ruleCalls, ruleThrows, ruleFails, ruleMessageText.
  cbn [startWithRule rule_validator rule_message].
  rewrite V, False, Msg. cbn [truthy negb].
  unfold startWithMessage, optionsToString.
  destruct (isArray value); reflexivity.
Qed.

End StartWithFacts.

(** X14: a schema all of whose rules are [startWithRule]s never makes
    [validate] raise, whatever the data. *)
Theorem validate_with_startWith_returns
    (errorText : JsValue -> string) (host : Host) (fns : RuleFunctions)
    (request : Request) (origin : DataOriginType) (options : ValidateOptions)
    (st : State) :
  (forall field def rule,
      In (field, def) options -> In rule (rulesOf def) ->
      exists ref pattern,
        rule = startWithRule ref /\ holdsStartWith errorText fns ref pattern) ->
  exists result st',
    validate host fns request origin options st = (Normal result, st').
Proof.
  intros Rules. rewrite validate_run.
  destruct (afterFields host fns origin (requestData request origin) options
              {| errors := []; calls := calls st |}) as [exn final] eqn:After.
  destruct exn as [e|]; [|eexists; eexists; reflexivity].
  exfalso.
  assert (F : fst (afterFields host fns origin (requestData request origin) options
                     {| errors := []; calls := calls st |}) = Some e)
    by (rewrite After; reflexivity).
  destruct (afterFields_thrown host fns origin (requestData request origin)
              options _ e F) as [field [def [rule [Hin [Hrule Th]]]]].
  destruct (Rules field def rule Hin Hrule) as [ref [pattern [-> Held]]].
  rewrite (startWith_never_throws errorText fns ref pattern Held) in Th.
  discriminate Th.
Qed.

Lemma startWith_validator_results_witness :
  notString (VNumber (NumFinite 5%Q))
  /\ startWithValidator v8ErrorText "a" (VNumber (NumFinite 5%Q))
     = Normal (VString "value.startsWith is not a function").
Proof.
  assert (N : notString (VNumber (NumFinite 5%Q))) by (intros s; discriminate).
  split; [exact N|].
  destruct (startWith_validator_results v8ErrorText "a") as [_ [_ H]].
  exact (H (VNumber (NumFinite 5%Q)) N eq_refl).
Defined.

Lemma startWith_validator_on_arrays_witness :
  startWithValidator v8ErrorText "ab"
    (VArray ([VString "abc"; VString "ab"] ++ VNull :: [VString "zz"]))
  = Normal (VString "Cannot read properties of null (reading 'startsWith')").
Proof.
  destruct (startWith_validator_on_arrays v8ErrorText "ab") as [_ [_ H]].
  apply (H [VString "abc"; VString "ab"] VNull [VString "zz"]).
  - constructor; [exists "c"; reflexivity|].
    constructor; [exists ""; reflexivity | constructor].
  - intros s. discriminate.
Defined.

Lemma startWith_table_holds patternOf errorText ref :
  holdsStartWith errorText (startWithFunctions errorText patternOf) ref (patternOf ref).
Proof. split; intros; reflexivity. Qed.

Lemma startWith_passes_non_strings_witness :
  let def := Fixtures.field TInt None [startWithRule 0] in
  rulesValidation (startWithFunctions v8ErrorText (fun _ => "a")) Body "age" def
    (VBool true) [("age", VBool true)] Fixtures.start
  = (Normal tt,
     {| errors := [];
        calls := [ValidatorCall 0 (VBool true) def [("age", VBool true)]] |}).
Proof.
  cbv zeta.
  apply (startWith_passes_non_strings v8ErrorText
           (startWithFunctions v8ErrorText (fun _ => "a")) 0 "a"
           (startWith_table_holds (fun _ => "a") v8ErrorText 0)
           Body "age" (Fixtures.field TInt None [startWithRule 0])
           (VBool true) [("age", VBool true)] Fixtures.start eq_refl eq_refl).
  - intros s. discriminate.
  - reflexivity.
  - discriminate.
Defined.

Lemma startWith_message_names_no_field_witness :
  let def := Fixtures.field TString None [startWithRule 0] in
  rulesValidation (startWithFunctions v8ErrorText (fun _ => "a")) Body "email" def
    (VString "banana") [("email", VString "banana")] Fixtures.start
  = (Normal tt,
     {| errors :=
          [mkError Body "email" def (VString "banana")
             ["The field `[object Object]` value must start with `a`"]];
        calls := [ValidatorCall 0 (VString "banana") def [("email", VString "banana")];
                  MessageCall 0 (VString "banana") def [("email", VString "banana")]] |}).
Proof.
  cbv zeta.
  apply (startWith_message_names_no_field v8ErrorText
           (startWithFunctions v8ErrorText (fun _ => "a")) 0 "a"
           (startWith_table_holds (fun _ => "a") v8ErrorText 0)
           Body "email" (Fixtures.field TString None [startWithRule 0])
           (VString "banana") [("email", VString "banana")] Fixtures.start
           eq_refl eq_refl eq_refl).
Defined.

Lemma validate_with_startWith_returns_witness :
  exists result st',
    validate Fixtures.host (startWithFunctions v8ErrorText (fun _ => "a"))
      (Fixtures.bodyRequest [("email", VNumber NumNaN)]) Body
      [("email", Fixtures.field TString None [startWithRule 0; startWithRule 1])]
      Fixtures.start
    = (Normal result, st').
Proof.
  apply (validate_with_startWith_returns v8ErrorText).
  intros field def rule [[= <- <-]|[]] Hrule.
  destruct Hrule as [<-|[<-|[]]].
  - exists 0, "a". split; [reflexivity | apply startWith_table_holds].
  - exists 1, "a". split; [reflexivity|].
    apply (startWith_table_holds (fun _ => "a") v8ErrorText 1).
Defined.

(** ** A run that is cut short *)

(** X15: a rule that raises ends the run at once.  The fields before it
    have been processed, the rules before it in its field have been
    called, and nothing after it is: the call log ends with the calls of
    the raising rule, no rule after it and no field after its field is
    consulted, and the caller gets the exception instead of a result. *)
Theorem exception_stops_run
    (host : Host) (fns : RuleFunctions) (request : Request)
    (origin : DataOriginType) (earlier later : ValidateOptions)
    (field : string) (def : FieldValidationOptions)
    (before after : list RuleType) (rule : RuleType) (e : Exception)
    (st : State) :
  let data := requestData request origin in
  let value := getProp data field in
  Forall (fun entry =>
            snd (fieldRun host fns origin data (fst entry) (snd entry)) = None)
    earlier ->
  rulesApply def value = true ->
  rulesOf def = (before ++ rule :: after)%list ->
  Forall (fun r => ruleThrows fns value def data r = None) before ->
  ruleThrows fns value def data rule = Some e ->
  exists st',
    validate host fns request origin (earlier ++ (field, def) :: later)%list st
    = (Throw e, st')
    /\ calls st'
       = (calls st
          ++ flat_map (fun entry => fieldCalls fns data (fst entry) (snd entry)) earlier
          ++ flat_map (ruleCalls fns value def data) before
          ++ ruleCalls fns value def data rule)%list.
Proof.
  intros data value Earlier Apply Rules Before Th.
  assert (F : fieldRun host fns origin data field def
              = ((requiredFailure field def value
                  ++ typeFailure host origin field def value
                  ++ map (ruleMessageText fns field value def data)
                       (filter (ruleFails fns value def data) before))%list,
                 (flat_map (ruleCalls fns value def data) before
                  ++ ruleCalls fns value def data rule)%list,
                 Some e)).
  { unfold fieldRun. fold value. rewrite Apply, Rules.
    rewrite (rulesRun_stops fns field value def data before rule after e Before Th).
    reflexivity. }
  rewrite validate_run. fold data. rewrite afterFields_app.
  assert (Ok : fst (afterFields host fns origin data earlier
                      {| errors := []; calls := calls st |}) = None)
    by (apply afterFields_completes; exact Earlier).
  pose proof (afterFields_calls host fns origin data earlier
                {| errors := []; calls := calls st |} Ok) as Calls.
  destruct (afterFields host fns origin data earlier
              {| errors := []; calls := calls st |}) as [exn mid].
  cbn [fst snd calls] in Ok, Calls. subst exn.
  cbn [afterFields]. rewrite F. cbn [snd].
  eexists. split; [reflexivity|].
  rewrite afterField_calls, F, Calls. cbn [fst snd].
  rewrite <- !app_assoc. reflexivity.
Qed.

Lemma exception_stops_run_witness :
  let id := Fixtures.field TInt None [Fixtures.rule 1 None] in
  let age := Fixtures.field TInt None
               [Fixtures.rule 0 None; Fixtures.rule 2 None; Fixtures.rule 1 None] in
  let data := [("id", VString "7"); ("age", VString "x")] in
  exists st',
    validate Fixtures.host Fixtures.rules (Fixtures.bodyRequest data) Body
      ([("id", id)] ++ ("age", age) :: [("name", Fixtures.field TString None
                                                    [Fixtures.rule 1 None])])%list
      Fixtures.start
    = (Throw (Thrown (VString "predicate failed")), st')
    /\ calls st'
       = [ValidatorCall 1 (VString "7") id data;
          ValidatorCall 0 (VString "x") age data;
          ValidatorCall 2 (VString "x") age data].
Proof.
  cbv zeta.
  apply (exception_stops_run Fixtures.host Fixtures.rules
           (Fixtures.bodyRequest [("id", VString "7"); ("age", VString "x")]) Body
           [("id", Fixtures.field TInt None [Fixtures.rule 1 None])]
           [("name", Fixtures.field TString None [Fixtures.rule 1 None])]
           "age"
           (Fixtures.field TInt None
              [Fixtures.rule 0 None; Fixtures.rule 2 None; Fixtures.rule 1 None])
           [Fixtures.rule 0 None] [Fixtures.rule 1 None] (Fixtures.rule 2 None)
           (Thrown (VString "predicate failed")) Fixtures.start).
  - repeat constructor.
  - reflexivity.
  - reflexivity.
  - repeat constructor.
  - reflexivity.
Defined.
